(* Shallow embedding of parts of Simbody's MobilizedBody.h and Constraint.h:
   the spatial algebra the headers use, the Ground-relative responses of a
   realized State, the basic and high-level kinematic operators, the stage
   discipline of the realization pipeline, the constraint equation layout and
   the mobility-force utilities. Real is modelled by Stdlib's R. *)

From Stdlib Require Import Reals Lra String List Bool Arith Lia.
Import ListNotations.

Open Scope R_scope.

(* ------------------------------------------------------------------------ *)
(** * Spatial algebra (SimTKcommon's Vec3, Mat33, Rotation, Transform) *)
(* ------------------------------------------------------------------------ *)

Module SpatialAlgebra.

Record Vec3 := mkVec3 { vx : R; vy : R; vz : R }.

Definition vadd (a b : Vec3) : Vec3 :=
  mkVec3 (vx a + vx b) (vy a + vy b) (vz a + vz b).
Definition vsub (a b : Vec3) : Vec3 :=
  mkVec3 (vx a - vx b) (vy a - vy b) (vz a - vz b).
Definition vneg (a : Vec3) : Vec3 := mkVec3 (- vx a) (- vy a) (- vz a).
(** scalar * Vec3 *)
Definition vscale (k : R) (a : Vec3) : Vec3 := mkVec3 (k * vx a) (k * vy a) (k * vz a).
(** Vec3 / scalar, element by element *)
Definition vdiv (a : Vec3) (k : R) : Vec3 := mkVec3 (vx a / k) (vy a / k) (vz a / k).
Definition dot (a b : Vec3) : R := vx a * vx b + vy a * vy b + vz a * vz b.
(** the cross product, written [a % b] in SimTK *)
Definition cross (a b : Vec3) : Vec3 :=
  mkVec3 (vy a * vz b - vz a * vy b)
         (vz a * vx b - vx a * vz b)
         (vx a * vy b - vy a * vx b).
Definition normSqr (a : Vec3) : R := dot a a.
Definition norm (a : Vec3) : R := sqrt (normSqr a).
Definition vzero : Vec3 := mkVec3 0 0 0.

(** A 3x3 matrix stored by rows. *)
Record Mat33 := mkMat33 { row0 : Vec3; row1 : Vec3; row2 : Vec3 }.

Definition col0 (m : Mat33) : Vec3 := mkVec3 (vx (row0 m)) (vx (row1 m)) (vx (row2 m)).
Definition col1 (m : Mat33) : Vec3 := mkVec3 (vy (row0 m)) (vy (row1 m)) (vy (row2 m)).
Definition col2 (m : Mat33) : Vec3 := mkVec3 (vz (row0 m)) (vz (row1 m)) (vz (row2 m)).

Definition transpose (m : Mat33) : Mat33 := mkMat33 (col0 m) (col1 m) (col2 m).

Definition mat_vec (m : Mat33) (v : Vec3) : Vec3 :=
  mkVec3 (dot (row0 m) v) (dot (row1 m) v) (dot (row2 m) v).

Definition mat_mul (a b : Mat33) : Mat33 :=
  mkMat33 (mkVec3 (dot (row0 a) (col0 b)) (dot (row0 a) (col1 b)) (dot (row0 a) (col2 b)))
          (mkVec3 (dot (row1 a) (col0 b)) (dot (row1 a) (col1 b)) (dot (row1 a) (col2 b)))
          (mkVec3 (dot (row2 a) (col0 b)) (dot (row2 a) (col1 b)) (dot (row2 a) (col2 b))).

Definition mat_id : Mat33 :=
  mkMat33 (mkVec3 1 0 0) (mkVec3 0 1 0) (mkVec3 0 0 1).

(** A SimTK [Rotation] is a 3x3 matrix kept orthonormal by its type. *)
Definition Rotation := Mat33.
Definition is_rotation (r : Rotation) : Prop := mat_mul (transpose r) r = mat_id.

(** Transform X_AB = (R_AB, p_AB); [X * s] is [T + R*s]. *)
Record Transform := mkTransform { RR : Rotation; TT : Vec3 }.

Definition transform_identity : Transform := mkTransform mat_id vzero.

(** [X * s] for a station s. *)
Definition xform_station (X : Transform) (s : Vec3) : Vec3 :=
  vadd (TT X) (mat_vec (RR X) s).

(** [~X]: SimTK's InverseTransform, (~R, -(~R*T)). *)
Definition inverse (X : Transform) : Transform :=
  mkTransform (transpose (RR X)) (vneg (mat_vec (transpose (RR X)) (TT X))).

(** [X1 * X2] for two transforms. *)
Definition compose (X1 X2 : Transform) : Transform :=
  mkTransform (mat_mul (RR X1) (RR X2)) (vadd (TT X1) (mat_vec (RR X1) (TT X2))).

(** Spatial vectors {angular, linear}. *)
Definition SpatialVec := (Vec3 * Vec3)%type.

End SpatialAlgebra.

Import SpatialAlgebra.

(* ------------------------------------------------------------------------ *)
(** * MobilizedBody: responses, basic operators, high-level operators *)
(* ------------------------------------------------------------------------ *)

Module MobilizedBody.

(** The per-body Ground-relative quantities held in a realized State's cache:
    X_GB (Position stage), V_GB = {w_GB, v_GB} (Velocity stage) and
    A_GB = {b_GB, a_GB} (Acceleration stage). *)
Record BodyCache := mkBodyCache {
  cacheX_GB : Transform;
  cacheV_GB : SpatialVec;
  cacheA_GB : SpatialVec
}.

(** A State realized far enough for the responses read below, seen through
    its per-body cache, indexed by MobilizedBodyIndex. *)
Record State := mkState { bodyCache : nat -> BodyCache }.

(** A MobilizedBody handle, identified by its index; index 0 is Ground. *)
Record MobilizedBody := mkMobilizedBody { mobilizedBodyIndex : nat }.

Definition isGround (b : MobilizedBody) : bool := Nat.eqb (mobilizedBodyIndex b) 0.
Definition isSameMobilizedBody (b a : MobilizedBody) : bool :=
  Nat.eqb (mobilizedBodyIndex b) (mobilizedBodyIndex a).

  (* POSITION STAGE responses *)
Definition getBodyTransform (b : MobilizedBody) (s : State) : Transform :=
  cacheX_GB (bodyCache s (mobilizedBodyIndex b)).
Definition getBodyRotation (b : MobilizedBody) (s : State) : Rotation :=
  RR (getBodyTransform b s).
Definition getBodyOriginLocation (b : MobilizedBody) (s : State) : Vec3 :=
  TT (getBodyTransform b s).

  (* VELOCITY STAGE responses *)
Definition getBodyVelocity (b : MobilizedBody) (s : State) : SpatialVec :=
  cacheV_GB (bodyCache s (mobilizedBodyIndex b)).
Definition getBodyAngularVelocity (b : MobilizedBody) (s : State) : Vec3 :=
  fst (getBodyVelocity b s).
Definition getBodyOriginVelocity (b : MobilizedBody) (s : State) : Vec3 :=
  snd (getBodyVelocity b s).

  (* ACCELERATION STAGE responses *)
Definition getBodyAcceleration (b : MobilizedBody) (s : State) : SpatialVec :=
  cacheA_GB (bodyCache s (mobilizedBodyIndex b)).
Definition getBodyAngularAcceleration (b : MobilizedBody) (s : State) : Vec3 :=
  fst (getBodyAcceleration b s).
Definition getBodyOriginAcceleration (b : MobilizedBody) (s : State) : Vec3 :=
  snd (getBodyAcceleration b s).

  (* BASIC OPERATORS *)
Definition locateBodyPointOnGround (b : MobilizedBody) (s : State) (locationOnB : Vec3) : Vec3 :=
  xform_station (getBodyTransform b s) locationOnB.

Definition locateGroundPointOnBody (b : MobilizedBody) (s : State) (locationOnG : Vec3) : Vec3 :=
  xform_station (inverse (getBodyTransform b s)) locationOnG.

Definition expressBodyVectorInGround (b : MobilizedBody) (s : State) (vectorInB : Vec3) : Vec3 :=
  mat_vec (getBodyRotation b s) vectorInB.

Definition calcBodyFixedPointVelocityInGround (b : MobilizedBody) (s : State) (stationOnB : Vec3) : Vec3 :=
  let w := getBodyAngularVelocity b s in
  let v := getBodyOriginVelocity b s in
  let r := expressBodyVectorInGround b s stationOnB in
  vadd v (cross w r).

(** The two output references (locationOnGround, velocityInGround). *)
Definition calcBodyFixedPointLocationAndVelocityInGround
    (b : MobilizedBody) (s : State) (locationOnB : Vec3) : Vec3 * Vec3 :=
  let r_G_OB := getBodyOriginLocation b s in
  let r := expressBodyVectorInGround b s locationOnB in
  let locationOnGround := vadd r_G_OB r in
  let w := getBodyAngularVelocity b s in
  let v := getBodyOriginVelocity b s in
  let velocityInGround := vadd v (cross w r) in
  (locationOnGround, velocityInGround).

Definition calcBodyFixedPointAccelerationInGround (b : MobilizedBody) (s : State) (stationOnB : Vec3) : Vec3 :=
  let w := getBodyAngularVelocity b s in
  let bb := getBodyAngularAcceleration b s in
  let a := getBodyOriginAcceleration b s in
  let r := expressBodyVectorInGround b s stationOnB in
  vadd (vadd a (cross bb r)) (cross w (cross w r)).

(** The three output references (location, velocity, acceleration). *)
Definition calcBodyFixedPointLocationVelocityAndAccelerationInGround
    (b : MobilizedBody) (s : State) (locationOnB : Vec3) : Vec3 * Vec3 * Vec3 :=
  let R_GB := getBodyRotation b s in
  let r_G_OB := getBodyOriginLocation b s in
  let r := mat_vec R_GB locationOnB in
  let locationOnGround := vadd r_G_OB r in
  let w := getBodyAngularVelocity b s in
  let v := getBodyOriginVelocity b s in
  let bb := getBodyAngularAcceleration b s in
  let a := getBodyOriginAcceleration b s in
  let wXr := cross w r in
  let velocityInGround := vadd v wXr in
  let accelerationInGround := vadd (vadd a (cross bb r)) (cross w wXr) in
  (locationOnGround, velocityInGround, accelerationInGround).

  (* HIGH-LEVEL OPERATORS *)

(** X_AB for this body B and [fromBodyA]. *)
Definition calcBodyTransformFromBody (b : MobilizedBody) (s : State) (fromBodyA : MobilizedBody) : Transform :=
  if isSameMobilizedBody b fromBodyA then transform_identity
  else if isGround fromBodyA then getBodyTransform b s
  else if isGround b then inverse (getBodyTransform fromBodyA s)
  else compose (inverse (getBodyTransform fromBodyA s)) (getBodyTransform b s).

Definition calcFixedPointToPointDistanceTimeDerivative
    (b : MobilizedBody) (s : State) (locationOnBodyB : Vec3)
    (bodyA : MobilizedBody) (locationOnBodyA : Vec3) : R :=
  if isSameMobilizedBody b bodyA then 0
  else
    let '(rB, vB) := calcBodyFixedPointLocationAndVelocityInGround b s locationOnBodyB in
    let '(rA, vA) := calcBodyFixedPointLocationAndVelocityInGround bodyA s locationOnBodyA in
    let r := vsub rA rB in
    let v := vsub vA vB in
    let d := norm r in
    if Req_EM_T d 0 then norm v
    else dot v (vdiv r d).

Definition calcFixedPointToPointDistance2ndTimeDerivative
    (b : MobilizedBody) (s : State) (locationOnBodyB : Vec3)
    (bodyA : MobilizedBody) (locationOnBodyA : Vec3) : R :=
  if isSameMobilizedBody b bodyA then 0
  else
    let '(rB, vB, aB) := calcBodyFixedPointLocationVelocityAndAccelerationInGround b s locationOnBodyB in
    let '(rA, vA, aA) := calcBodyFixedPointLocationVelocityAndAccelerationInGround bodyA s locationOnBodyA in
    let r := vsub rA rB in
    let v := vsub vA vB in
    let a := vsub aA aB in
    let d := norm r in
    if Req_EM_T d 0 then
      let speed := norm v in
      if Req_EM_T speed 0 then norm a
      else dot a (vdiv v speed)
    else
      let u := vdiv r d in
      let vp := vsub v (vscale (dot v u) u) in
      dot a u + dot vp v / d.

End MobilizedBody.

(* ------------------------------------------------------------------------ *)
(** * The moving-point operators declared but not implemented *)
(* ------------------------------------------------------------------------ *)

Module MovingPoint.
Import MobilizedBody.

(** The C++ condition handed to SimTK_ASSERT_ALWAYS in these stubs is
    [!"unimplemented method"]: the negation of a string literal. *)
Inductive AssertCondition :=
| NotStringLiteral (lit : string).

(** A string literal decays to a non-null pointer, which converts to true. *)
Definition string_literal_as_bool (lit : string) : bool := true.

Definition eval_condition (c : AssertCondition) : bool :=
  match c with
  | NotStringLiteral lit => negb (string_literal_as_bool lit)
  end.

(** SimTK::Exception::Assert, carrying the stringized condition and the message. *)
Inductive Exception :=
| Assert (cond : AssertCondition) (msg : string).

(** A C++ call either returns a value or throws. *)
Inductive Result (A : Type) :=
| Returns (a : A)
| Throws (e : Exception).
Arguments Returns {A} a.
Arguments Throws {A} e.

Definition bind {A B} (m : Result A) (k : A -> Result B) : Result B :=
  match m with
  | Returns a => k a
  | Throws e => Throws e
  end.

(** SimTK_ASSERT_ALWAYS(cond, msg): checked in every build, throws when
    the condition is false. *)
Definition SimTK_ASSERT_ALWAYS (c : AssertCondition) (msg : string) : Result unit :=
  if eval_condition c then Returns tt else Throws (Assert c msg).

(** A returned Real may be the NaN sentinel. *)
Inductive Real_ := Finite (r : R) | NaN.
(** A returned Vec3 may be [Vec3::getNaN()]. *)
Inductive Vec3_ := FiniteVec3 (v : Vec3) | NaNVec3.

Definition calcBodyMovingPointVelocityInBody (b : MobilizedBody) (s : State)
    (locationOnBodyB velocityOnBodyB : Vec3) (inBodyA : MobilizedBody) : Result Vec3_ :=
  bind (SimTK_ASSERT_ALWAYS (NotStringLiteral "unimplemented method")
          "MobilizedBody::calcBodyMovingPointVelocityInBody() is not yet implemented -- any volunteers?")
       (fun _ => Returns NaNVec3).

Definition calcBodyMovingPointAccelerationInBody (b : MobilizedBody) (s : State)
    (locationOnBodyB velocityOnBodyB accelerationOnBodyB : Vec3) (inBodyA : MobilizedBody) : Result Vec3_ :=
  bind (SimTK_ASSERT_ALWAYS (NotStringLiteral "unimplemented method")
          "MobilizedBody::calcBodyMovingPointAccelerationInBody() is not yet implemented -- any volunteers?")
       (fun _ => Returns NaNVec3).

Definition calcMovingPointToPointDistanceTimeDerivative (b : MobilizedBody) (s : State)
    (locationOnBodyB velocityOnBodyB : Vec3) (bodyA : MobilizedBody)
    (locationOnBodyA velocityOnBodyA : Vec3) : Result Real_ :=
  bind (SimTK_ASSERT_ALWAYS (NotStringLiteral "unimplemented method")
          "MobilizedBody::calcMovingPointToPointDistanceTimeDerivative() is not yet implemented -- any volunteers?")
       (fun _ => Returns NaN).

End MovingPoint.

(* ------------------------------------------------------------------------ *)
(** * Realization pipeline and the Position-stage response *)
(* ------------------------------------------------------------------------ *)

Module Realization.

Inductive Stage :=
| Empty | Topology | Model | Instance | Time | Position | Velocity | Dynamics | Acceleration.

Definition stage_index (g : Stage) : nat :=
  match g with
  | Empty => 0 | Topology => 1 | Model => 2 | Instance => 3 | Time => 4
  | Position => 5 | Velocity => 6 | Dynamics => 7 | Acceleration => 8
  end.

Definition stage_leb (g h : Stage) : bool := Nat.leb (stage_index g) (stage_index h).
Definition stage_min (g h : Stage) : Stage := if stage_leb g h then g else h.

Inductive Error := StageViolation.

Inductive Result (A : Type) := Ok (a : A) | Err (e : Error).
Arguments Ok {A} a.
Arguments Err {A} e.

(** Modelled from the spec: the topology consulted by the pipeline, whose
    code (the matter subsystem) is not part of the sources: where each
    body's q's start in the q vector, and the Position-stage computation of
    every body's X_GB from q by recursion from Ground. *)
Record MatterTopology := mkMatterTopology {
  qIndex : nat -> nat;
  calcPositionKinematics : list R -> nat -> Transform
}.

(** Modelled from the spec: the State (q, u, stage marker, X_GB cache);
    State's implementation is not part of the sources. *)
Record State := mkState {
  stage : Stage;
  q : list R;
  u : list R;
  cacheX_GB : nat -> Transform
}.

Definition set_stage (s : State) (g : Stage) : State :=
  mkState g (q s) (u s) (cacheX_GB s).

(** Element assignment in a Vector; an index past the end changes nothing. *)
Fixpoint set_nth (l : list R) (i : nat) (v : R) : list R :=
  match l, i with
  | [], _ => []
  | _ :: t, O => v :: t
  | h :: t, S i' => h :: set_nth t i' v
  end.

Fixpoint set_range (l : list R) (start : nat) (vs : list R) : list R :=
  match vs with
  | [] => l
  | v :: vs' => set_range (set_nth l start v) (S start) vs'
  end.

(** Modelled from the spec: the stage callback run when [g] is reached; at
    Position the body transforms are computed from q and cached. *)
Definition realizeStage (t : MatterTopology) (s : State) (g : Stage) : State :=
  match g with
  | Position => mkState g (q s) (u s) (calcPositionKinematics t (q s))
  | _ => set_stage s g
  end.

(** Modelled from the spec: [realize(State&, stage)]: a stage already
    reached is a no-op, the next stage is realized, any skip fails with
    StageViolation and leaves the State unchanged. *)
Definition realize (t : MatterTopology) (s : State) (g : Stage) : Result State :=
  if stage_leb g (stage s) then Ok s
  else if Nat.eqb (stage_index g) (S (stage_index (stage s))) then Ok (realizeStage t s g)
  else Err StageViolation.

(** Modelled from the spec: [MobilizedBody::getBodyTransform], a
    Position-stage response that checks the stage marker before reading
    the cache. *)
Definition getBodyTransform (s : State) (body : nat) : Result Transform :=
  if stage_leb Position (stage s) then Ok (cacheX_GB s body) else Err StageViolation.

(** Modelled from the spec: setting q invalidates Position and above, so
    the marker drops below Position (to Time) if it was higher. *)
Definition setOneQ (t : MatterTopology) (s : State) (body which : nat) (v : R) : State :=
  mkState (stage_min (stage s) Time) (set_nth (q s) (qIndex t body + which) v) (u s) (cacheX_GB s).

Definition setQVector (t : MatterTopology) (s : State) (body : nat) (v : list R) : State :=
  mkState (stage_min (stage s) Time) (set_range (q s) (qIndex t body) v) (u s) (cacheX_GB s).

(** Modelled from the spec: setting u invalidates Velocity and above. *)
Definition setOneU (s : State) (i : nat) (v : R) : State :=
  mkState (stage_min (stage s) Position) (q s) (set_nth (u s) i v) (cacheX_GB s).

(** Operations a caller may apply to a State. *)
Inductive Op :=
| OpSetOneQ (body which : nat) (v : R)
| OpSetQVector (body : nat) (v : list R)
| OpSetOneU (i : nat) (v : R)
| OpRealize (g : Stage).

(** Run a sequence of operations; a failed realize leaves the State as it was. *)
Definition step (t : MatterTopology) (s : State) (o : Op) : State :=
  match o with
  | OpSetOneQ b w v => setOneQ t s b w v
  | OpSetQVector b v => setQVector t s b v
  | OpSetOneU i v => setOneU s i v
  | OpRealize g => match realize t s g with Ok s' => s' | Err _ => s end
  end.

Definition run (t : MatterTopology) (s : State) (ops : list Op) : State := fold_left (step t) ops s.

Definition is_realize_position (o : Op) : bool :=
  match o with OpRealize Position => true | _ => false end.

End Realization.

(* ------------------------------------------------------------------------ *)
(** * Constraint equation layout and multiplier consumption *)
(* ------------------------------------------------------------------------ *)

Module ConstraintModel.

(** Body forces (one SpatialVec per constrained body, in the ancestor frame)
    and mobility forces (one Real per constrained mobility). *)
Definition Forces := (list SpatialVec * list R)%type.

Definition sv_add (a b : SpatialVec) : SpatialVec :=
  (vadd (fst a) (fst b), vadd (snd a) (snd b)).

Definition forces_add (f g : Forces) : Forces :=
  (map (fun p => sv_add (fst p) (snd p)) (combine (fst f) (fst g)),
   map (fun p => fst p + snd p) (combine (snd f) (snd g))).

Inductive Error := DimensionMismatch.

Inductive Result (A : Type) := Ok (a : A) | Err (e : Error).
Arguments Ok {A} a.
Arguments Err {A} e.

(** Modelled from the spec: a constraint as the engine sees it (the
    ConstraintRep implementation is not part of the sources): its equation
    counts and the per-level callbacks a constraint variant supplies. *)
Record Constraint := mkConstraint {
  mp : nat; mv : nat; ma : nat;
  numConstrainedBodies : nat;
  numConstrainedMobilities : nat;
  calcPositionErrors : list R -> list R;        (* q    -> mp *)
  calcPositionDotErrors : list R -> list R;     (* u    -> mp *)
  calcVelocityErrors : list R -> list R;        (* u    -> mv *)
  calcPositionDotDotErrors : list R -> list R;  (* udot -> mp *)
  calcVelocityDotErrors : list R -> list R;     (* udot -> mv *)
  calcAccelerationErrors : list R -> list R;    (* udot -> ma *)
  applyPositionConstraintForces : list R -> Forces;     (* mp multipliers *)
  applyVelocityConstraintForces : list R -> Forces;     (* mv multipliers *)
  applyAccelerationConstraintForces : list R -> Forces  (* ma multipliers *)
}.

Definition numEquations (c : Constraint) : nat := mp c + mv c + ma c.

(** A variant implements each error callback for exactly the equations it
    declares. *)
Definition wellFormed (c : Constraint) : Prop :=
  forall x,
    length (calcPositionErrors c x) = mp c /\
    length (calcPositionDotErrors c x) = mp c /\
    length (calcVelocityErrors c x) = mv c /\
    length (calcPositionDotDotErrors c x) = mp c /\
    length (calcVelocityDotErrors c x) = mv c /\
    length (calcAccelerationErrors c x) = ma c.

(** The State seen by the constraint engine: q, u, udot and the global
    multiplier vector (all constraints, in index order). *)
Record State := mkState {
  q : list R; u : list R; udot : list R; multipliers : list R
}.

Definition getPositionError (c : Constraint) (s : State) : list R :=
  calcPositionErrors c (q s).

(** Nonholonomic errors stack after the holonomic-derivative errors. *)
Definition getVelocityError (c : Constraint) (s : State) : list R :=
  calcPositionDotErrors c (u s) ++ calcVelocityErrors c (u s).

Definition getAccelerationError (c : Constraint) (s : State) : list R :=
  calcPositionDotDotErrors c (udot s) ++ calcVelocityDotErrors c (udot s)
    ++ calcAccelerationErrors c (udot s).

(** Where constraint [i]'s multipliers start in the global vector. *)
Fixpoint multiplierStart (cs : list Constraint) (i : nat) : nat :=
  match cs, i with
  | [], _ => 0
  | _, O => 0
  | c :: cs', S i' => numEquations c + multiplierStart cs' i'
  end.

Fixpoint totalEquations (cs : list Constraint) : nat :=
  match cs with
  | [] => 0
  | c :: cs' => numEquations c + totalEquations cs'
  end.

Definition getMultipliers (cs : list Constraint) (i : nat) (s : State) : list R :=
  match nth_error cs i with
  | Some c => firstn (numEquations c) (skipn (multiplierStart cs i) (multipliers s))
  | None => []
  end.

Definition zeroForces (c : Constraint) : Forces :=
  (repeat (vzero, vzero) (numConstrainedBodies c), repeat 0 (numConstrainedMobilities c)).

(** Each level's callback is called only when that level has equations. *)
Definition combineForces (c : Constraint) (lp lv la : list R) : Forces :=
  let fp := if Nat.eqb (mp c) 0 then zeroForces c else applyPositionConstraintForces c lp in
  let fv := if Nat.eqb (mv c) 0 then zeroForces c else applyVelocityConstraintForces c lv in
  let fa := if Nat.eqb (ma c) 0 then zeroForces c else applyAccelerationConstraintForces c la in
  forces_add (forces_add fp fv) fa.

(** Modelled from the spec: [calcConstraintForcesFromMultipliers]; lambda
    is holonomic, then nonholonomic, then acceleration-only; a lambda of
    the wrong size is a DimensionMismatch. *)
Definition calcConstraintForcesFromMultipliers (c : Constraint) (s : State) (lambda : list R)
  : Result Forces :=
  if Nat.eqb (length lambda) (numEquations c) then
    let lp := firstn (mp c) lambda in
    let lv := firstn (mv c) (skipn (mp c) lambda) in
    let la := skipn (mp c + mv c) lambda in
    Ok (combineForces c lp lv la)
  else Err DimensionMismatch.

End ConstraintModel.

(* ------------------------------------------------------------------------ *)
(** * Mobility-force utilities *)
(* ------------------------------------------------------------------------ *)

Module MobilityForces.

(** Modelled from the spec: the u partition of each mobilizer (first index
    and count in the u vector), which the matter subsystem holds and which
    is not part of the sources. *)
Record UPartition := mkUPartition { uIndex : nat -> nat; numU : nat -> nat }.

(** Modelled from the spec: [updOneFromUPartition], the slot of mobility
    [which] of [body] in a u-like Vector. *)
Definition updOneFromUPartition (t : UPartition) (body which : nat) : nat :=
  uIndex t body + which.

(** [ref += f] on the slot [i] of a Vector. *)
Definition add_to_slot (l : list R) (i : nat) (f : R) : list R :=
  Realization.set_nth l i (nth i l 0 + f).

Definition applyOneMobilityForce (t : UPartition) (body which : nat) (f : R)
    (mobilityForces : list R) : list R :=
  add_to_slot mobilityForces (updOneFromUPartition t body which) f.

(** Modelled from the spec: [updMyPartU] for a Pin, whose lone u is the
    first slot of its u partition. *)
Definition updMyPartU_Pin (t : UPartition) (body : nat) : nat := uIndex t body.

Definition applyPinTorque (t : UPartition) (body : nat) (torque : R)
    (mobilityForces : list R) : list R :=
  add_to_slot mobilityForces (updMyPartU_Pin t body) torque.

End MobilityForces.

(* ------------------------------------------------------------------------ *)
(** * MobilizedBody: re-expression and relative kinematics between bodies *)
(* ------------------------------------------------------------------------ *)

Module RelativeKinematics.
Import MobilizedBody.

Definition expressGroundVectorInBody (b : MobilizedBody) (s : State) (vectorInG : Vec3) : Vec3 :=
  mat_vec (transpose (getBodyRotation b s)) vectorInG.

Definition locateBodyPointOnBody (b : MobilizedBody) (s : State) (locationOnB : Vec3)
    (toBodyA : MobilizedBody) : Vec3 :=
  locateGroundPointOnBody toBodyA s (locateBodyPointOnGround b s locationOnB).

Definition expressBodyVectorInBody (b : MobilizedBody) (s : State) (vectorInB : Vec3)
    (inBodyA : MobilizedBody) : Vec3 :=
  expressGroundVectorInBody inBodyA s (expressBodyVectorInGround b s vectorInB).

(** [Rotation * SpatialVec] rotates both halves. *)
Definition rotate_spatial (r : Rotation) (v : SpatialVec) : SpatialVec :=
  (mat_vec r (fst v), mat_vec r (snd v)).

(** R_AB for this body B and [fromBodyA]. *)
Definition calcBodyRotationFromBody (b : MobilizedBody) (s : State) (fromBodyA : MobilizedBody) : Rotation :=
  if isSameMobilizedBody b fromBodyA then mat_id
  else if isGround fromBodyA then getBodyRotation b s
  else if isGround b then transpose (getBodyRotation fromBodyA s)
  else mat_mul (transpose (getBodyRotation fromBodyA s)) (getBodyRotation b s).

Definition calcBodyOriginLocationInBody (b : MobilizedBody) (s : State) (inBodyA : MobilizedBody) : Vec3 :=
  if isSameMobilizedBody b inBodyA then vzero
  else
    let r_OG_OB := getBodyOriginLocation b s in
    if isGround inBodyA then r_OG_OB
    else locateGroundPointOnBody inBodyA s r_OG_OB.

Definition calcBodyPointLocationInBody (b : MobilizedBody) (s : State) (locationOnBodyB : Vec3)
    (inBodyA : MobilizedBody) : Vec3 :=
  if isSameMobilizedBody b inBodyA then locationOnBodyB
  else if isGround inBodyA then locateBodyPointOnGround b s locationOnBodyB
  else if isGround b then locateGroundPointOnBody inBodyA s locationOnBodyB
  else locateBodyPointOnBody b s locationOnBodyB inBodyA.

Definition calcBodyVectorInBody (b : MobilizedBody) (s : State) (vectorOnBodyB : Vec3)
    (inBodyA : MobilizedBody) : Vec3 :=
  if isSameMobilizedBody b inBodyA then vectorOnBodyB
  else if isGround inBodyA then expressBodyVectorInGround b s vectorOnBodyB
  else if isGround b then expressGroundVectorInBody inBodyA s vectorOnBodyB
  else expressBodyVectorInBody b s vectorOnBodyB inBodyA.

  (* VELOCITY *)

Definition calcBodySpatialVelocityInBody (b : MobilizedBody) (s : State) (inBodyA : MobilizedBody) : SpatialVec :=
  let V_GB := getBodyVelocity b s in
  if isGround inBodyA then V_GB
  else
    let V_GA := getBodyVelocity inBodyA s in
    let w_AB_G := vsub (fst V_GB) (fst V_GA) in
    let X_GB := getBodyTransform b s in
    let X_GA := getBodyTransform inBodyA s in
    let p_AB_G := vsub (TT X_GB) (TT X_GA) in
    let p_AB_G_dot := vsub (snd V_GB) (snd V_GA) in
    let v_AB_G := vsub p_AB_G_dot (cross (fst V_GA) p_AB_G) in
    rotate_spatial (transpose (RR X_GA)) (w_AB_G, v_AB_G).

Definition calcBodyAngularVelocityInBody (b : MobilizedBody) (s : State) (inBodyA : MobilizedBody) : Vec3 :=
  let V_GB := getBodyVelocity b s in
  if isGround inBodyA then fst V_GB
  else
    let V_GA := getBodyVelocity inBodyA s in
    let w_AB_G := vsub (fst V_GB) (fst V_GA) in
    expressGroundVectorInBody inBodyA s w_AB_G.

Definition calcBodyOriginVelocityInBody (b : MobilizedBody) (s : State) (inBodyA : MobilizedBody) : Vec3 :=
  snd (calcBodySpatialVelocityInBody b s inBodyA).

Definition calcBodyFixedPointVelocityInBody (b : MobilizedBody) (s : State) (locationOnBodyB : Vec3)
    (inBodyA : MobilizedBody) : Vec3 :=
  let R_AB := calcBodyRotationFromBody b s inBodyA in
  let V_AB := calcBodySpatialVelocityInBody b s inBodyA in
  let p_OB_P_A := mat_vec R_AB locationOnBodyB in
  vadd (snd V_AB) (cross (fst V_AB) p_OB_P_A).

  (* ACCELERATION *)

Definition calcBodySpatialAccelerationInBody (b : MobilizedBody) (s : State) (inBodyA : MobilizedBody) : SpatialVec :=
  let A_GB := getBodyAcceleration b s in
  if isGround inBodyA then A_GB
  else
    let p_GB := TT (getBodyTransform b s) in
    let X_GA := getBodyTransform inBodyA s in
    let p_GA := TT X_GA in
    let V_GB := getBodyVelocity b s in
    let V_GA := getBodyVelocity inBodyA s in
    let A_GA := getBodyAcceleration inBodyA s in
    let w_GA := fst V_GA in
    let w_GB := fst V_GB in
    let b_GA := fst A_GA in
    let b_GB := fst A_GB in
    let p_AB_G := vsub p_GB p_GA in
    let p_AB_G_dot := vsub (snd V_GB) (snd V_GA) in
    let p_AB_G_dotdot := vsub (snd A_GB) (snd A_GA) in
    let w_AB_G := vsub w_GB w_GA in
    let v_AB_G := vsub p_AB_G_dot (cross w_GA p_AB_G) in
    let w_AB_G_dot := vsub b_GB b_GA in
    let v_AB_G_dot := vsub p_AB_G_dotdot (vadd (cross b_GA p_AB_G) (cross w_GA p_AB_G_dot)) in
    let b_AB_G := vsub w_AB_G_dot (cross w_GA w_AB_G) in
    let a_AB_G := vsub v_AB_G_dot (cross w_GA v_AB_G) in
    rotate_spatial (transpose (RR X_GA)) (b_AB_G, a_AB_G).

Definition calcBodyAngularAccelerationInBody (b : MobilizedBody) (s : State) (inBodyA : MobilizedBody) : Vec3 :=
  fst (calcBodySpatialAccelerationInBody b s inBodyA).

Definition calcBodyOriginAccelerationInBody (b : MobilizedBody) (s : State) (inBodyA : MobilizedBody) : Vec3 :=
  snd (calcBodySpatialAccelerationInBody b s inBodyA).

Definition calcBodyFixedPointAccelerationInBody (b : MobilizedBody) (s : State) (locationOnBodyB : Vec3)
    (inBodyA : MobilizedBody) : Vec3 :=
  let R_AB := calcBodyRotationFromBody b s inBodyA in
  let w_AB := calcBodyAngularVelocityInBody b s inBodyA in
  let A_AB := calcBodySpatialAccelerationInBody b s inBodyA in
  let p_OB_P_A := mat_vec R_AB locationOnBodyB in
  vadd (vadd (snd A_AB) (cross (fst A_AB) p_OB_P_A)) (cross w_AB (cross w_AB p_OB_P_A)).

  (* SCALAR DISTANCE *)

Definition calcPointToPointDistance (b : MobilizedBody) (s : State) (locationOnBodyB : Vec3)
    (bodyA : MobilizedBody) (locationOnBodyA : Vec3) : R :=
  if isSameMobilizedBody b bodyA then norm (vsub locationOnBodyA locationOnBodyB)
  else
    let r_OG_PB := locateBodyPointOnGround b s locationOnBodyB in
    let r_OG_PA := locateBodyPointOnGround bodyA s locationOnBodyA in
    norm (vsub r_OG_PA r_OG_PB).

  (* BASIC OPERATOR on two bodies *)

Definition calcStationVelocityInBody (b : MobilizedBody) (s : State) (stationOnB : Vec3)
    (bodyA : MobilizedBody) : Vec3 :=
  let locationOnA := calcBodyPointLocationInBody b s stationOnB bodyA in
  let velocityInGround := calcBodyFixedPointVelocityInGround b s stationOnB in
  let w := getBodyAngularVelocity bodyA s in
  let v := getBodyOriginVelocity bodyA s in
  expressGroundVectorInBody bodyA s
    (vsub (vsub velocityInGround v) (cross w (expressBodyVectorInGround bodyA s locationOnA))).

(** Ground's cached quantities in a realized State: X_GG is the identity
    and Ground neither moves nor accelerates. *)
Definition ground_at_rest (s : State) : Prop :=
  bodyCache s 0%nat = mkBodyCache transform_identity (vzero, vzero) (vzero, vzero).

(** R is orthonormal on both sides (R^T R = R R^T = 1). *)
Definition orthonormal (r : Rotation) : Prop :=
  is_rotation r /\ mat_mul r (transpose r) = mat_id.

(** The determinant of a 3x3 matrix, r0 . (r1 x r2). *)
Definition det3 (m : Mat33) : R := dot (row0 m) (cross (row1 m) (row2 m)).

(** A proper rotation: orthonormal with determinant +1, the invariant a
    SimTK Rotation keeps. *)
Definition proper_rotation (r : Rotation) : Prop := orthonormal r /\ det3 r = 1.

End RelativeKinematics.

(* ------------------------------------------------------------------------ *)
(** * Pin and Slider mobility-force accessors *)
(* ------------------------------------------------------------------------ *)

Module OneDofForces.
Import MobilityForces.

(** Modelled from the spec: [getMyPartU] of a one-mobility mobilizer reads
    the lone slot of its u partition. *)
Definition getMyPartU_OneDof (t : UPartition) (body : nat) (ulike : list R) : R :=
  nth (uIndex t body) ulike 0.

Definition getAppliedPinTorque (t : UPartition) (body : nat) (mobilityForces : list R) : R :=
  getMyPartU_OneDof t body mobilityForces.

Definition getAppliedForce_Slider (t : UPartition) (body : nat) (mobilityForces : list R) : R :=
  getMyPartU_OneDof t body mobilityForces.

(** Modelled from the spec: [updMyPartU] of a Slider, its lone u slot. *)
Definition updMyPartU_Slider (t : UPartition) (body : nat) : nat := uIndex t body.

Definition applyForce_Slider (t : UPartition) (body : nat) (force : R) (mobilityForces : list R) : list R :=
  add_to_slot mobilityForces (updMyPartU_Slider t body) force.

End OneDofForces.

(* ======================================================================== *)
(** * Proofs *)
(* ======================================================================== *)

Module KinematicsFacts.
Import MobilizedBody.

Lemma vec3_eq (a b : Vec3) :
  vx a = vx b -> vy a = vy b -> vz a = vz b -> a = b.
Proof. destruct a, b; simpl; intros; subst; reflexivity. Qed.

Ltac vec3_ring :=
  repeat match goal with v : Vec3 |- _ => destruct v end;
  apply vec3_eq; simpl; ring.

Lemma mat_vec_vadd (m : Mat33) (a b : Vec3) :
  mat_vec m (vadd a b) = vadd (mat_vec m a) (mat_vec m b).
Proof. destruct m; unfold mat_vec, vadd, dot; vec3_ring. Qed.

Lemma mat_vec_mat_mul (m n : Mat33) (v : Vec3) :
  mat_vec (mat_mul m n) v = mat_vec m (mat_vec n v).
Proof.
  destruct m, n; unfold mat_vec, mat_mul, col0, col1, col2, dot; vec3_ring.
Qed.

Lemma mat_vec_id (v : Vec3) : mat_vec mat_id v = v.
Proof. unfold mat_vec, mat_id, dot; vec3_ring. Qed.

Lemma vadd_vneg_cancel (a p : Vec3) : vadd (vneg a) (vadd a p) = p.
Proof. unfold vadd, vneg; vec3_ring. Qed.

Lemma mat_id_is_rotation : is_rotation mat_id.
Proof.
  unfold is_rotation, mat_mul, transpose, mat_id, col0, col1, col2, dot; simpl.
  f_equal; f_equal; ring.
Qed.

Lemma norm_nonneg (a : Vec3) : 0 <= norm a.
Proof. unfold norm. apply sqrt_pos. Qed.

(** The batched location/velocity operator, componentwise. *)
Lemma location_velocity_components (b : MobilizedBody) (s : State) (p : Vec3) :
  calcBodyFixedPointLocationAndVelocityInGround b s p =
  (locateBodyPointOnGround b s p, calcBodyFixedPointVelocityInGround b s p).
Proof. reflexivity. Qed.

Lemma location_velocity_acceleration_components (b : MobilizedBody) (s : State) (p : Vec3) :
  calcBodyFixedPointLocationVelocityAndAccelerationInGround b s p =
  (locateBodyPointOnGround b s p, calcBodyFixedPointVelocityInGround b s p,
   calcBodyFixedPointAccelerationInGround b s p).
Proof. reflexivity. Qed.

(** A realized state in which every body sits at the Ground frame, at rest. *)
Definition restState : State :=
  mkState (fun _ => mkBodyCache transform_identity (vzero, vzero) (vzero, vzero)).

(** A state in which body 2 sits one unit along Ground x from body 1 and
    moves with velocity (0,1,0) and acceleration (0,0,1). *)
Definition movingState : State :=
  mkState (fun i =>
    match i with
    | 2%nat => mkBodyCache (mkTransform mat_id (mkVec3 1 0 0))
                           (vzero, mkVec3 0 1 0) (vzero, mkVec3 0 0 1)
    | _ => mkBodyCache transform_identity (vzero, vzero) (vzero, vzero)
    end).

(** C5: locateGroundPointOnBody undoes locateBodyPointOnGround, for any body
    whose X_GB carries a rotation (orthonormal R_GB) and any point. *)
Theorem locate_ground_body_roundtrip (b : MobilizedBody) (s : State) (p : Vec3) :
  is_rotation (getBodyRotation b s) ->
  locateGroundPointOnBody b s (locateBodyPointOnGround b s p) = p.
Proof.
  unfold is_rotation, getBodyRotation, locateGroundPointOnBody, locateBodyPointOnGround.
  destruct (getBodyTransform b s) as [R0 T0]; simpl; intro Hrot.
  unfold xform_station, inverse; simpl.
  rewrite mat_vec_vadd, <- mat_vec_mat_mul, Hrot, mat_vec_id.
  apply vadd_vneg_cancel.
Qed.

Lemma locate_ground_body_roundtrip_witness :
  is_rotation (getBodyRotation (mkMobilizedBody 2) movingState) /\
  locateGroundPointOnBody (mkMobilizedBody 2) movingState
    (locateBodyPointOnGround (mkMobilizedBody 2) movingState (mkVec3 1 2 3)) = mkVec3 1 2 3.
Proof.
  split.
  - exact mat_id_is_rotation.
  - apply (locate_ground_body_roundtrip (mkMobilizedBody 2) movingState (mkVec3 1 2 3)).
    exact mat_id_is_rotation.
Defined.

(** C6: X_AB is the identity for the same body (whatever the State), X_GB
    when A is Ground, ~X_GA when B is Ground, and ~X_GA * X_GB otherwise. *)
Theorem calcBodyTransformFromBody_cases (b a : MobilizedBody) (s : State) :
  (isSameMobilizedBody b a = true ->
     forall s', calcBodyTransformFromBody b s a = transform_identity /\
                calcBodyTransformFromBody b s' a = transform_identity) /\
  (isSameMobilizedBody b a = false -> isGround a = true ->
     calcBodyTransformFromBody b s a = getBodyTransform b s) /\
  (isSameMobilizedBody b a = false -> isGround a = false -> isGround b = true ->
     calcBodyTransformFromBody b s a = inverse (getBodyTransform a s)) /\
  (isSameMobilizedBody b a = false -> isGround a = false -> isGround b = false ->
     calcBodyTransformFromBody b s a = compose (inverse (getBodyTransform a s)) (getBodyTransform b s)).
Proof.
  unfold calcBodyTransformFromBody.
  repeat split; intros; repeat match goal with H : _ = _ |- _ => rewrite H end; reflexivity.
Qed.

(** C3: for distinct bodies, the distance rate is |v| for coincident points
    and dot(v, r/d) for separated ones, with r and v the Ground separation
    and relative velocity. *)
Theorem distance_rate_cases (b a : MobilizedBody) (s : State) (pB pA : Vec3) :
  isSameMobilizedBody b a = false ->
  let r := vsub (locateBodyPointOnGround a s pA) (locateBodyPointOnGround b s pB) in
  let v := vsub (calcBodyFixedPointVelocityInGround a s pA)
                (calcBodyFixedPointVelocityInGround b s pB) in
  (norm r = 0 -> calcFixedPointToPointDistanceTimeDerivative b s pB a pA = norm v) /\
  (norm r > 0 ->
     calcFixedPointToPointDistanceTimeDerivative b s pB a pA = dot v (vdiv r (norm r))).
Proof.
  intros Hdiff r v.
  unfold calcFixedPointToPointDistanceTimeDerivative.
  rewrite Hdiff, !location_velocity_components.
  fold r v.
  split; intro Hd; destruct (Req_EM_T (norm r) 0) as [H0 | H0];
    solve [reflexivity | lra].
Qed.

(** C4: for distinct bodies, the second distance derivative is |a| for
    coincident points at zero relative speed, dot(a, v/|v|) for coincident
    points with nonzero speed, and dot(a,u) + dot(v - dot(v,u)u, v)/d with
    u = r/d for separated points. *)
Theorem distance_second_rate_cases (b a : MobilizedBody) (s : State) (pB pA : Vec3) :
  isSameMobilizedBody b a = false ->
  let r := vsub (locateBodyPointOnGround a s pA) (locateBodyPointOnGround b s pB) in
  let v := vsub (calcBodyFixedPointVelocityInGround a s pA)
                (calcBodyFixedPointVelocityInGround b s pB) in
  let acc := vsub (calcBodyFixedPointAccelerationInGround a s pA)
                  (calcBodyFixedPointAccelerationInGround b s pB) in
  let d := norm r in
  (d = 0 -> norm v = 0 -> calcFixedPointToPointDistance2ndTimeDerivative b s pB a pA = norm acc) /\
  (d = 0 -> norm v > 0 ->
     calcFixedPointToPointDistance2ndTimeDerivative b s pB a pA = dot acc (vdiv v (norm v))) /\
  (d > 0 ->
     let u := vdiv r d in
     calcFixedPointToPointDistance2ndTimeDerivative b s pB a pA =
       dot acc u + dot (vsub v (vscale (dot v u) u)) v / d).
Proof.
  intros Hdiff r v acc d.
  unfold calcFixedPointToPointDistance2ndTimeDerivative.
  rewrite Hdiff, !location_velocity_acceleration_components.
  fold r v acc d.
  repeat split; intros;
    destruct (Req_EM_T d 0); try lra;
    try (destruct (Req_EM_T (norm v) 0); try lra);
    reflexivity.
Qed.

(** The coincident-point configuration: both bodies at the Ground frame,
    body 2 moving with velocity (0,1,0). *)
Definition coincidentState : State :=
  mkState (fun i =>
    match i with
    | 2%nat => mkBodyCache transform_identity (vzero, mkVec3 0 1 0) (vzero, vzero)
    | _ => mkBodyCache transform_identity (vzero, vzero) (vzero, vzero)
    end).

Lemma distance_rate_cases_witness :
  calcFixedPointToPointDistanceTimeDerivative (mkMobilizedBody 1) coincidentState vzero
    (mkMobilizedBody 2) vzero = 1.
Proof.
  rewrite (proj1 (distance_rate_cases (mkMobilizedBody 1) (mkMobilizedBody 2) coincidentState
                    vzero vzero eq_refl)).
  - unfold norm, normSqr, dot, vsub, calcBodyFixedPointVelocityInGround; cbn.
    replace (_ + _ + _) with 1 by ring. apply sqrt_1.
  - unfold norm, normSqr, dot, vsub, locateBodyPointOnGround, xform_station; cbn.
    replace (_ + _ + _) with 0 by ring. apply sqrt_0.
Defined.

Lemma norm_unit_x : norm (mkVec3 1 0 0) = 1.
Proof. unfold norm, normSqr, dot; cbn. replace (_ + _ + _) with 1 by ring. apply sqrt_1. Qed.

Lemma distance_second_rate_cases_witness :
  calcFixedPointToPointDistance2ndTimeDerivative (mkMobilizedBody 1) movingState vzero
    (mkMobilizedBody 2) vzero = 1.
Proof.
  pose proof (proj2 (proj2 (distance_second_rate_cases (mkMobilizedBody 1) (mkMobilizedBody 2)
                              movingState vzero vzero eq_refl))) as H.
  cbv zeta in H.
  assert (Hr : vsub (locateBodyPointOnGround (mkMobilizedBody 2) movingState vzero)
                    (locateBodyPointOnGround (mkMobilizedBody 1) movingState vzero) = mkVec3 1 0 0)
    by (apply vec3_eq; cbn; ring).
  assert (Hv : vsub (calcBodyFixedPointVelocityInGround (mkMobilizedBody 2) movingState vzero)
                    (calcBodyFixedPointVelocityInGround (mkMobilizedBody 1) movingState vzero)
               = mkVec3 0 1 0)
    by (apply vec3_eq; cbn; ring).
  assert (Ha : vsub (calcBodyFixedPointAccelerationInGround (mkMobilizedBody 2) movingState vzero)
                    (calcBodyFixedPointAccelerationInGround (mkMobilizedBody 1) movingState vzero)
               = mkVec3 0 0 1)
    by (apply vec3_eq; cbn; ring).
  rewrite Hr, Hv, Ha, norm_unit_x in H.
  rewrite H by lra.
  unfold dot, vdiv, vscale, vsub; cbn. field.
Defined.

(** C9: the batched location/velocity and location/velocity/acceleration
    operators return exactly what the separate operators return. *)
Theorem batched_point_kinematics_agree (b : MobilizedBody) (s : State) (p : Vec3) :
  calcBodyFixedPointLocationAndVelocityInGround b s p =
    (locateBodyPointOnGround b s p, calcBodyFixedPointVelocityInGround b s p) /\
  calcBodyFixedPointLocationVelocityAndAccelerationInGround b s p =
    (locateBodyPointOnGround b s p, calcBodyFixedPointVelocityInGround b s p,
     calcBodyFixedPointAccelerationInGround b s p).
Proof.
  split.
  - unfold calcBodyFixedPointLocationAndVelocityInGround, locateBodyPointOnGround,
      calcBodyFixedPointVelocityInGround, xform_station, getBodyOriginLocation,
      expressBodyVectorInGround, getBodyRotation.
    reflexivity.
  - unfold calcBodyFixedPointLocationVelocityAndAccelerationInGround, locateBodyPointOnGround,
      calcBodyFixedPointVelocityInGround, calcBodyFixedPointAccelerationInGround, xform_station,
      getBodyOriginLocation, expressBodyVectorInGround, getBodyRotation.
    reflexivity.
Qed.

End KinematicsFacts.

Module MovingPointFacts.
Import MobilizedBody MovingPoint.

(** C8: the three moving-point operators throw SimTK's Assert exception on
    the condition [!"unimplemented method"] for every input; they never
    return a value, so their NaN returns are unreachable. *)
Theorem moving_point_operators_always_throw
    (b a : MobilizedBody) (s : State) (pB vB aB pA vA : Vec3) :
  (exists msg, calcBodyMovingPointVelocityInBody b s pB vB a =
     Throws (Assert (NotStringLiteral "unimplemented method") msg)) /\
  (exists msg, calcBodyMovingPointAccelerationInBody b s pB vB aB a =
     Throws (Assert (NotStringLiteral "unimplemented method") msg)) /\
  (exists msg, calcMovingPointToPointDistanceTimeDerivative b s pB vB a pA vA =
     Throws (Assert (NotStringLiteral "unimplemented method") msg)) /\
  (forall x, calcBodyMovingPointVelocityInBody b s pB vB a <> Returns x) /\
  (forall x, calcBodyMovingPointAccelerationInBody b s pB vB aB a <> Returns x) /\
  (forall x, calcMovingPointToPointDistanceTimeDerivative b s pB vB a pA vA <> Returns x).
Proof.
  repeat split; try (eexists; reflexivity); intros x H; discriminate H.
Qed.

End MovingPointFacts.

Module RealizationFacts.
Import Realization.

Definition below_position (s : State) : Prop := (stage_index (stage s) < 5)%nat.

Lemma getBodyTransform_below (s : State) (body : nat) :
  below_position s -> getBodyTransform s body = Err StageViolation.
Proof.
  unfold below_position, getBodyTransform, stage_leb; intro H; cbn [stage_index].
  destruct (Nat.leb_spec 5 (stage_index (stage s))); [lia | reflexivity].
Qed.

Lemma stage_min_time_below (g : Stage) : (stage_index (stage_min g Time) < 5)%nat.
Proof. destruct g; cbv; lia. Qed.

Lemma setOneQ_below (t : MatterTopology) (s : State) (b w : nat) (v : R) :
  below_position (setOneQ t s b w v).
Proof. apply stage_min_time_below. Qed.

Lemma setQVector_below (t : MatterTopology) (s : State) (b : nat) (v : list R) :
  below_position (setQVector t s b v).
Proof. apply stage_min_time_below. Qed.

(** Only realizing Position itself takes a State from below Position to it. *)
Lemma step_keeps_below (t : MatterTopology) (s : State) (o : Op) :
  below_position s -> is_realize_position o = false -> below_position (step t s o).
Proof.
  unfold below_position; intros H Ho; destruct o as [b w v | b v | i v | g]; simpl.
  - apply stage_min_time_below.
  - apply stage_min_time_below.
  - unfold stage_min, stage_leb; cbn [stage_index].
    destruct (Nat.leb_spec (stage_index (stage s)) 5); cbn [stage]; lia.
  - unfold realize, stage_leb.
    destruct (Nat.leb_spec (stage_index g) (stage_index (stage s))); [exact H |].
    destruct (Nat.eqb_spec (stage_index g) (S (stage_index (stage s)))) as [E | E]; [| exact H].
    destruct g; simpl in *; try discriminate Ho; lia.
Qed.

Lemma run_keeps_below (t : MatterTopology) (ops : list Op) :
  forall s, below_position s -> forallb (fun o => negb (is_realize_position o)) ops = true ->
  below_position (run t s ops).
Proof.
  unfold run; induction ops as [| o ops IH]; simpl; intros s Hs Hops; [exact Hs |].
  apply andb_true_iff in Hops as [Ho Hops].
  apply IH; [| exact Hops].
  apply step_keeps_below; [exact Hs |].
  destruct (is_realize_position o); [discriminate | reflexivity].
Qed.

Lemma realize_position_from_below (t : MatterTopology) (s : State) :
  stage s = Time -> realize t s Position = Ok (mkState Position (q s) (u s) (calcPositionKinematics t (q s))).
Proof. unfold realize, stage_leb; intro H; rewrite H; reflexivity. Qed.

Lemma setOneQ_stage (t : MatterTopology) (s : State) (b w : nat) (v : R) :
  below_position s \/ stage (setOneQ t s b w v) = Time.
Proof.
  unfold below_position, setOneQ, stage_min, stage_leb; cbn [stage stage_index].
  destruct (Nat.leb_spec (stage_index (stage s)) 4); [left; lia | right; reflexivity].
Qed.

Lemma realize_position_ok_stage (t : MatterTopology) (s s' : State) :
  realize t s Position = Ok s' -> (5 <= stage_index (stage s'))%nat.
Proof.
  unfold realize, stage_leb; cbn [stage_index].
  destruct (Nat.leb_spec 5 (stage_index (stage s))) as [H | H].
  - intro E; injection E as <-; exact H.
  - destruct (Nat.eqb_spec 5 (S (stage_index (stage s)))); intro E; [| discriminate E].
    injection E as <-; simpl; lia.
Qed.

(** C2: the Position-stage response getBodyTransform fails with
    StageViolation before Position is realized; after a successful
    realize(s, Position) it returns the cached X_GB; after setOneQ or
    setQVector it fails again, through any operations that do not realize
    Position, and realizing Position then succeeds with X_GB recomputed
    from the new q. *)
Theorem position_response_stage_discipline (t : MatterTopology) (s : State) (body : nat) :
  ((stage_index (stage s) < 5)%nat -> getBodyTransform s body = Err StageViolation) /\
  (forall s', realize t s Position = Ok s' ->
     getBodyTransform s' body = Ok (cacheX_GB s' body) /\
     (forall b w v ops,
        forallb (fun o => negb (is_realize_position o)) ops = true ->
        getBodyTransform (run t (setOneQ t s' b w v) ops) body = Err StageViolation) /\
     (forall b vs ops,
        forallb (fun o => negb (is_realize_position o)) ops = true ->
        getBodyTransform (run t (setQVector t s' b vs) ops) body = Err StageViolation) /\
     (forall b w v, exists s'',
        realize t (setOneQ t s' b w v) Position = Ok s'' /\
        getBodyTransform s'' body = Ok (calcPositionKinematics t (q s'') body))).
Proof.
  split; [apply getBodyTransform_below |].
  intros s' Hs'.
  pose proof (realize_position_ok_stage t s s' Hs') as Hge.
  split; [| split; [| split]].
  - unfold getBodyTransform, stage_leb; cbn [stage_index].
    destruct (Nat.leb_spec 5 (stage_index (stage s'))); [reflexivity | lia].
  - intros b w v ops Hops. apply getBodyTransform_below, run_keeps_below; [apply setOneQ_below | exact Hops].
  - intros b vs ops Hops. apply getBodyTransform_below, run_keeps_below; [apply setQVector_below | exact Hops].
  - intros b w v.
    destruct (setOneQ_stage t s' b w v) as [Hb | Ht]; [unfold below_position in Hb; lia |].
    eexists; split; [apply realize_position_from_below; exact Ht | reflexivity].
Qed.

End RealizationFacts.

Module ConstraintFacts.
Import ConstraintModel.

Lemma firstn_app_exact {A} (l1 l2 : list A) (n : nat) :
  length l1 = n -> firstn n (l1 ++ l2) = l1.
Proof.
  revert n; induction l1 as [| x l1 IH]; intros n H; simpl in *; subst; [reflexivity |].
  simpl; f_equal; apply IH; reflexivity.
Qed.

Lemma skipn_app_exact {A} (l1 l2 : list A) (n : nat) :
  length l1 = n -> skipn n (l1 ++ l2) = l2.
Proof.
  revert n; induction l1 as [| x l1 IH]; intros n H; simpl in *; subst; [reflexivity |].
  simpl; apply IH; reflexivity.
Qed.

Lemma multiplierStart_bound (cs : list Constraint) :
  forall i c, nth_error cs i = Some c ->
  (multiplierStart cs i + numEquations c <= totalEquations cs)%nat.
Proof.
  induction cs as [| c0 cs IH]; intros [| i] c H; simpl in *; try discriminate.
  - injection H as <-; lia.
  - specialize (IH i c H); lia.
Qed.

Lemma split_multipliers (c : Constraint) (s : State) (lp lv la : list R) :
  length lp = mp c -> length lv = mv c -> length la = ma c ->
  calcConstraintForcesFromMultipliers c s (lp ++ lv ++ la) = Ok (combineForces c lp lv la).
Proof.
  intros Hp Hv Ha; unfold calcConstraintForcesFromMultipliers, numEquations.
  rewrite !length_app, Hp, Hv, Ha, Nat.add_assoc, Nat.eqb_refl.
  rewrite (firstn_app_exact lp (lv ++ la) (mp c) Hp).
  rewrite (skipn_app_exact lp (lv ++ la) (mp c) Hp).
  rewrite (firstn_app_exact lv la (mv c) Hv).
  rewrite app_assoc, (skipn_app_exact (lp ++ lv) la (mp c + mv c)) by (rewrite length_app; lia).
  reflexivity.
Qed.

(** C7: for a constraint whose callbacks produce their declared number of
    equations, getPositionError has mp entries, getVelocityError has mp+mv
    with the nonholonomic ones after the holonomic-derivative ones,
    getAccelerationError and (in the global layout) getMultipliers have
    mp+mv+ma, and calcConstraintForcesFromMultipliers accepts exactly the
    multiplier vectors of length mp+mv+ma, handing the first mp to the
    holonomic level, the next mv to the nonholonomic level and the last ma
    to the acceleration-only level. *)
Theorem constraint_equation_layout (c : Constraint) (s : State) :
  wellFormed c ->
  length (getPositionError c s) = mp c /\
  length (getVelocityError c s) = (mp c + mv c)%nat /\
  firstn (mp c) (getVelocityError c s) = calcPositionDotErrors c (u s) /\
  skipn (mp c) (getVelocityError c s) = calcVelocityErrors c (u s) /\
  length (getAccelerationError c s) = (mp c + mv c + ma c)%nat /\
  (forall cs i, nth_error cs i = Some c -> length (multipliers s) = totalEquations cs ->
     length (getMultipliers cs i s) = (mp c + mv c + ma c)%nat) /\
  (forall lambda, (exists f, calcConstraintForcesFromMultipliers c s lambda = Ok f) <->
                  length lambda = (mp c + mv c + ma c)%nat) /\
  (forall lp lv la, length lp = mp c -> length lv = mv c -> length la = ma c ->
     calcConstraintForcesFromMultipliers c s (lp ++ lv ++ la) = Ok (combineForces c lp lv la)).
Proof.
  intro Hwf.
  destruct (Hwf (q s)) as [Hpq _].
  destruct (Hwf (u s)) as [_ [Hpu [Hvu _]]].
  destruct (Hwf (udot s)) as [_ [_ [_ [Hpa [Hva Haa]]]]].
  split; [exact Hpq |].
  split; [unfold getVelocityError; rewrite length_app; lia |].
  split; [apply firstn_app_exact; exact Hpu |].
  split; [apply skipn_app_exact; exact Hpu |].
  split; [unfold getAccelerationError; rewrite !length_app; lia |].
  split.
  - intros cs i Hi Hlen; unfold getMultipliers; rewrite Hi.
    pose proof (multiplierStart_bound cs i c Hi) as Hb.
    rewrite length_firstn, length_skipn; unfold numEquations in *; lia.
  - split; [| exact (split_multipliers c s)].
    intro lambda; unfold calcConstraintForcesFromMultipliers, numEquations.
    destruct (Nat.eqb_spec (length lambda) (mp c + mv c + ma c)) as [E | E].
    + split; [intros _; exact E | intros _; eexists; reflexivity].
    + split; [intros [f Hf]; discriminate Hf | intro H; contradiction].
Qed.

(** A one-holonomic, one-nonholonomic constraint. *)
Definition sampleConstraint : Constraint :=
  mkConstraint 1 1 0 1 1
    (fun _ => [0]) (fun _ => [0]) (fun _ => [0]) (fun _ => [0]) (fun _ => [0]) (fun _ => [])
    (fun l => ([(vzero, vzero)], l)) (fun l => ([(vzero, vzero)], l)) (fun _ => ([(vzero, vzero)], [0])).

Definition sampleState : State := mkState [] [] [] [2; 3].

Lemma sampleConstraint_wellFormed : wellFormed sampleConstraint.
Proof. intro x; repeat split. Qed.

Lemma constraint_equation_layout_witness :
  wellFormed sampleConstraint /\
  length (getVelocityError sampleConstraint sampleState) = 2%nat /\
  calcConstraintForcesFromMultipliers sampleConstraint sampleState ([2] ++ [3] ++ []) =
    Ok (combineForces sampleConstraint [2] [3] []).
Proof.
  split; [exact sampleConstraint_wellFormed |].
  pose proof (constraint_equation_layout sampleConstraint sampleState sampleConstraint_wellFormed)
    as [_ [Hv [_ [_ [_ [_ [_ Hf]]]]]]].
  split; [exact Hv |].
  apply Hf; reflexivity.
Defined.

End ConstraintFacts.

Module MobilityForceFacts.
Import MobilityForces.

Lemma length_set_nth (l : list R) (i : nat) (v : R) :
  length (Realization.set_nth l i v) = length l.
Proof.
  revert i; induction l as [| h t IH]; intros [| i]; simpl; try reflexivity.
  f_equal; apply IH.
Qed.

Lemma nth_set_nth_eq (l : list R) (i : nat) (v d : R) :
  (i < length l)%nat -> nth i (Realization.set_nth l i v) d = v.
Proof.
  revert i; induction l as [| h t IH]; intros [| i] H; simpl in *; try lia; try reflexivity.
  apply IH; lia.
Qed.

Lemma nth_set_nth_neq (l : list R) (i k : nat) (v d : R) :
  k <> i -> nth k (Realization.set_nth l i v) d = nth k l d.
Proof.
  revert i k; induction l as [| h t IH]; intros [| i] [| k] H; simpl; try reflexivity; try lia.
  apply IH; lia.
Qed.

Lemma add_to_slot_spec (l : list R) (i : nat) (f : R) :
  (i < length l)%nat ->
  length (add_to_slot l i f) = length l /\
  nth i (add_to_slot l i f) 0 = nth i l 0 + f /\
  (forall k, k <> i -> nth k (add_to_slot l i f) 0 = nth k l 0).
Proof.
  intro H; unfold add_to_slot; split; [apply length_set_nth |].
  split; [apply nth_set_nth_eq; exact H |].
  intros k Hk; apply nth_set_nth_neq; exact Hk.
Qed.

(** C10: applyOneMobilityForce adds f to the one slot of mobility [which]
    of this mobilizer (uIndex + which) and leaves every other entry and the
    length unchanged. *)
Theorem applyOneMobilityForce_adds_one_slot (t : UPartition) (body which : nat) (f : R)
    (mobilityForces : list R) :
  (which < numU t body)%nat -> (uIndex t body + numU t body <= length mobilityForces)%nat ->
  let i := (uIndex t body + which)%nat in
  length (applyOneMobilityForce t body which f mobilityForces) = length mobilityForces /\
  nth i (applyOneMobilityForce t body which f mobilityForces) 0 = nth i mobilityForces 0 + f /\
  (forall k, k <> i -> nth k (applyOneMobilityForce t body which f mobilityForces) 0 = nth k mobilityForces 0) /\
  (numU t body = 1%nat ->
     applyPinTorque t body f mobilityForces = applyOneMobilityForce t body 0 f mobilityForces).
Proof.
  intros Hw Hlen i.
  destruct (add_to_slot_spec mobilityForces i f) as [H1 [H2 H3]]; [unfold i; lia |].
  split; [exact H1 |]; split; [exact H2 |]; split; [exact H3 |].
  intros _; unfold applyPinTorque, applyOneMobilityForce, updMyPartU_Pin, updOneFromUPartition.
  rewrite Nat.add_0_r; reflexivity.
Qed.

Definition pinPartition : UPartition := mkUPartition (fun b => b) (fun _ => 1%nat).

Lemma applyOneMobilityForce_adds_one_slot_witness :
  (0 < numU pinPartition 1)%nat /\ (uIndex pinPartition 1 + numU pinPartition 1 <= length [5; 7; 9])%nat /\
  nth 1 (applyOneMobilityForce pinPartition 1 0 2 [5; 7; 9]) 0 = 7 + 2.
Proof.
  split; [cbn; lia |]; split; [cbn; lia |].
  exact (proj1 (proj2 (applyOneMobilityForce_adds_one_slot pinPartition 1 0 2 [5; 7; 9]
                         ltac:(cbn; lia) ltac:(cbn; lia)))).
Defined.

End MobilityForceFacts.

Module RelativeKinematicsFacts.
Import MobilizedBody RelativeKinematics KinematicsFacts.

Ltac open_vecs :=
  repeat match goal with
         | v : Vec3 |- _ => destruct v
         | m : Mat33 |- _ => destruct m
         | m : Rotation |- _ => destruct m
         | x : Transform |- _ => destruct x
         | p : SpatialVec |- _ => destruct p
         end.

Ltac alg :=
  unfold compose, inverse, xform_station, transform_identity, rotate_spatial, mat_mul,
    mat_vec, transpose, col0, col1, col2, cross, dot, vadd, vsub, vneg, vscale, vdiv,
    mat_id, vzero in *;
  open_vecs; cbn;
  repeat match goal with
         | |- mkTransform _ _ = mkTransform _ _ => f_equal
         | |- mkMat33 _ _ _ = mkMat33 _ _ _ => f_equal
         | |- mkVec3 _ _ _ = mkVec3 _ _ _ => f_equal
         | |- (_, _) = (_, _) => f_equal
         end;
  try unfold Rdiv; ring.

Lemma mat_vec_vneg (m : Mat33) (a : Vec3) : mat_vec m (vneg a) = vneg (mat_vec m a).
Proof. alg. Qed.

Lemma xform_inverse_after (X : Transform) (p : Vec3) :
  mat_mul (transpose (RR X)) (RR X) = mat_id ->
  xform_station (inverse X) (xform_station X p) = p.
Proof.
  destruct X as [R0 T0]; simpl; intro H.
  unfold xform_station, inverse; simpl.
  rewrite mat_vec_vadd, <- mat_vec_mat_mul, H, mat_vec_id.
  apply vadd_vneg_cancel.
Qed.

Lemma xform_inverse_before (X : Transform) (y : Vec3) :
  mat_mul (RR X) (transpose (RR X)) = mat_id ->
  xform_station X (xform_station (inverse X) y) = y.
Proof.
  destruct X as [R0 T0]; simpl; intro H.
  unfold xform_station, inverse; simpl.
  rewrite mat_vec_vadd, mat_vec_vneg, <- !mat_vec_mat_mul, H, !mat_vec_id.
  alg.
Qed.

Lemma ground_transform (b : MobilizedBody) (s : State) :
  ground_at_rest s -> isGround b = true -> getBodyTransform b s = transform_identity.
Proof.
  unfold ground_at_rest, isGround, getBodyTransform; intros Hg Hb.
  apply Nat.eqb_eq in Hb; rewrite Hb, Hg; reflexivity.
Qed.

Lemma same_body_transform (b a : MobilizedBody) (s : State) :
  isSameMobilizedBody b a = true -> getBodyTransform a s = getBodyTransform b s.
Proof.
  unfold isSameMobilizedBody, getBodyTransform; intro H.
  apply Nat.eqb_eq in H; rewrite H; reflexivity.
Qed.

Lemma xform_identity (p : Vec3) : xform_station transform_identity p = p.
Proof. unfold xform_station, transform_identity, mat_id, mat_vec, dot, vadd, vzero; alg. Qed.

Lemma xform_inverse_identity (p : Vec3) : xform_station (inverse transform_identity) p = p.
Proof.
  unfold xform_station, inverse, transform_identity, transpose, col0, col1, col2, mat_id,
    mat_vec, dot, vadd, vneg, vzero; alg.
Qed.

(** X1: expressGroundVectorInBody undoes expressBodyVectorInGround (R^T R = 1),
    and the other way round (R R^T = 1). *)
Theorem express_vector_roundtrip (b : MobilizedBody) (s : State) (v : Vec3) :
  orthonormal (getBodyRotation b s) ->
  expressGroundVectorInBody b s (expressBodyVectorInGround b s v) = v /\
  expressBodyVectorInGround b s (expressGroundVectorInBody b s v) = v.
Proof.
  intros [H1 H2]; unfold is_rotation in H1.
  unfold expressGroundVectorInBody, expressBodyVectorInGround.
  rewrite <- !mat_vec_mat_mul, H1, H2, !mat_vec_id; split; reflexivity.
Qed.

(** X2: Re-locating a station of B on A and then back on B gives the station. *)
Theorem locateBodyPointOnBody_roundtrip (b a : MobilizedBody) (s : State) (p : Vec3) :
  is_rotation (getBodyRotation b s) ->
  mat_mul (getBodyRotation a s) (transpose (getBodyRotation a s)) = mat_id ->
  locateBodyPointOnBody a s (locateBodyPointOnBody b s p a) b = p.
Proof.
  unfold is_rotation, getBodyRotation, locateBodyPointOnBody, locateBodyPointOnGround,
    locateGroundPointOnBody; intros Hb Ha.
  rewrite (xform_inverse_before _ _ Ha).
  exact (xform_inverse_after _ _ Hb).
Qed.

(** X3: calcBodyPointLocationInBody's special cases (same body, A Ground, B
    Ground) agree with the general locateBodyPointOnBody. *)
Theorem calcBodyPointLocationInBody_general (b a : MobilizedBody) (s : State) (p : Vec3) :
  ground_at_rest s -> is_rotation (getBodyRotation b s) ->
  calcBodyPointLocationInBody b s p a = locateBodyPointOnBody b s p a.
Proof.
  intros Hg Hb; unfold calcBodyPointLocationInBody, locateBodyPointOnBody.
  destruct (isSameMobilizedBody b a) eqn:Hs.
  - unfold locateGroundPointOnBody, locateBodyPointOnGround.
    rewrite (same_body_transform b a s Hs).
    symmetry; exact (xform_inverse_after _ _ Hb).
  - destruct (isGround a) eqn:Ha.
    + unfold locateGroundPointOnBody; rewrite (ground_transform a s Hg Ha).
      symmetry; apply xform_inverse_identity.
    + destruct (isGround b) eqn:Hb0; [| reflexivity].
      unfold locateBodyPointOnGround; rewrite (ground_transform b s Hg Hb0), xform_identity.
      reflexivity.
Qed.

(** X4: calcBodyVectorInBody's special cases agree with the general
    expressBodyVectorInBody. *)
Theorem calcBodyVectorInBody_general (b a : MobilizedBody) (s : State) (v : Vec3) :
  ground_at_rest s -> is_rotation (getBodyRotation b s) ->
  calcBodyVectorInBody b s v a = expressBodyVectorInBody b s v a.
Proof.
  unfold is_rotation; intros Hg Hb; unfold calcBodyVectorInBody, expressBodyVectorInBody,
    expressGroundVectorInBody, expressBodyVectorInGround, getBodyRotation in *.
  destruct (isSameMobilizedBody b a) eqn:Hs.
  - rewrite (same_body_transform b a s Hs), <- mat_vec_mat_mul, Hb, mat_vec_id; reflexivity.
  - destruct (isGround a) eqn:Ha.
    + rewrite (ground_transform a s Hg Ha); unfold transform_identity; simpl; alg.
    + destruct (isGround b) eqn:Hb0; [| reflexivity].
      rewrite (ground_transform b s Hg Hb0); unfold transform_identity; simpl; alg.
Qed.

Lemma transformFromBody_general (b a : MobilizedBody) (s : State) :
  ground_at_rest s -> is_rotation (getBodyRotation b s) ->
  calcBodyTransformFromBody b s a = compose (inverse (getBodyTransform a s)) (getBodyTransform b s).
Proof.
  unfold is_rotation, getBodyRotation; intros Hg Hb; unfold calcBodyTransformFromBody.
  destruct (isSameMobilizedBody b a) eqn:Hs.
  - rewrite (same_body_transform b a s Hs).
    destruct (getBodyTransform b s) as [R0 T0]; simpl in Hb.
    unfold compose, inverse; simpl; rewrite Hb.
    unfold transform_identity; f_equal.
    generalize (mat_vec (transpose R0) T0); intro w; alg.
  - destruct (isGround a) eqn:Ha.
    + rewrite (ground_transform a s Hg Ha).
      generalize (getBodyTransform b s); intro X; alg.
    + destruct (isGround b) eqn:Hb0; [| reflexivity].
      rewrite (ground_transform b s Hg Hb0).
      generalize (getBodyTransform a s); intro X; alg.
Qed.

(** X5: calcBodyTransformFromBody's special cases agree with the general
    composition ~X_GA * X_GB. *)
Theorem calcBodyTransformFromBody_general (b a : MobilizedBody) (s : State) :
  ground_at_rest s -> is_rotation (getBodyRotation b s) ->
  calcBodyTransformFromBody b s a = compose (inverse (getBodyTransform a s)) (getBodyTransform b s).
Proof. exact (transformFromBody_general b a s). Qed.

(** X6: calcBodyRotationFromBody is the rotation part of calcBodyTransformFromBody
    and calcBodyOriginLocationInBody its translation part. *)
Theorem rotation_and_origin_match_transform (b a : MobilizedBody) (s : State) :
  ground_at_rest s ->
  calcBodyRotationFromBody b s a = RR (calcBodyTransformFromBody b s a) /\
  calcBodyOriginLocationInBody b s a = TT (calcBodyTransformFromBody b s a).
Proof.
  intro Hg; unfold calcBodyRotationFromBody, calcBodyOriginLocationInBody,
    calcBodyTransformFromBody, getBodyRotation, getBodyOriginLocation, locateGroundPointOnBody.
  destruct (isSameMobilizedBody b a); [split; reflexivity |].
  destruct (isGround a) eqn:Ha; [split; reflexivity |].
  destruct (isGround b) eqn:Hb0; [| split; reflexivity].
  rewrite (ground_transform b s Hg Hb0); split; [reflexivity |].
  alg.
Qed.

Lemma norm_vsub_sym (x y : Vec3) : norm (vsub x y) = norm (vsub y x).
Proof. unfold norm, normSqr; f_equal; alg. Qed.

(** X7: The point-to-point distance does not depend on which point is named first. *)
Theorem calcPointToPointDistance_symmetric (b a : MobilizedBody) (s : State) (pB pA : Vec3) :
  calcPointToPointDistance b s pB a pA = calcPointToPointDistance a s pA b pB.
Proof.
  unfold calcPointToPointDistance, isSameMobilizedBody.
  rewrite Nat.eqb_sym; destruct (Nat.eqb _ _); apply norm_vsub_sym.
Qed.

Lemma isSame_sym (b a : MobilizedBody) : isSameMobilizedBody b a = isSameMobilizedBody a b.
Proof. unfold isSameMobilizedBody; apply Nat.eqb_sym. Qed.

Lemma distance_rate_unfold (b a : MobilizedBody) (s : State) (pB pA : Vec3) :
  isSameMobilizedBody b a = false ->
  calcFixedPointToPointDistanceTimeDerivative b s pB a pA =
  let r := vsub (locateBodyPointOnGround a s pA) (locateBodyPointOnGround b s pB) in
  let v := vsub (calcBodyFixedPointVelocityInGround a s pA) (calcBodyFixedPointVelocityInGround b s pB) in
  if Req_EM_T (norm r) 0 then norm v else dot v (vdiv r (norm r)).
Proof.
  intro H; unfold calcFixedPointToPointDistanceTimeDerivative.
  rewrite H, !location_velocity_components; reflexivity.
Qed.

Lemma distance_second_rate_unfold (b a : MobilizedBody) (s : State) (pB pA : Vec3) :
  isSameMobilizedBody b a = false ->
  calcFixedPointToPointDistance2ndTimeDerivative b s pB a pA =
  let r := vsub (locateBodyPointOnGround a s pA) (locateBodyPointOnGround b s pB) in
  let v := vsub (calcBodyFixedPointVelocityInGround a s pA) (calcBodyFixedPointVelocityInGround b s pB) in
  let acc := vsub (calcBodyFixedPointAccelerationInGround a s pA)
                  (calcBodyFixedPointAccelerationInGround b s pB) in
  if Req_EM_T (norm r) 0 then
    (if Req_EM_T (norm v) 0 then norm acc else dot acc (vdiv v (norm v)))
  else
    dot acc (vdiv r (norm r)) +
      dot (vsub v (vscale (dot v (vdiv r (norm r))) (vdiv r (norm r)))) v / norm r.
Proof.
  intro H; unfold calcFixedPointToPointDistance2ndTimeDerivative.
  rewrite H, !location_velocity_acceleration_components; reflexivity.
Qed.

(** X8: The rate of change of the distance between two fixed points does not
    depend on which point is named first. *)
Theorem distance_rate_symmetric (b a : MobilizedBody) (s : State) (pB pA : Vec3) :
  calcFixedPointToPointDistanceTimeDerivative b s pB a pA =
  calcFixedPointToPointDistanceTimeDerivative a s pA b pB.
Proof.
  destruct (isSameMobilizedBody b a) eqn:Hs.
  - unfold calcFixedPointToPointDistanceTimeDerivative; rewrite Hs, isSame_sym, Hs; reflexivity.
  - rewrite (distance_rate_unfold b a s pB pA Hs).
    rewrite isSame_sym in Hs; rewrite (distance_rate_unfold a b s pA pB Hs); cbv zeta.
    generalize (locateBodyPointOnGround a s pA) (locateBodyPointOnGround b s pB)
               (calcBodyFixedPointVelocityInGround a s pA) (calcBodyFixedPointVelocityInGround b s pB).
    intros rA rB vA vB.
    rewrite (norm_vsub_sym rB rA).
    destruct (Req_EM_T (norm (vsub rA rB)) 0); [apply norm_vsub_sym |].
    generalize (norm (vsub rA rB)); intro d; alg.
Qed.

(** X9: The second time derivative of the distance between two fixed points
    does not depend on which point is named first. *)
Theorem distance_second_rate_symmetric (b a : MobilizedBody) (s : State) (pB pA : Vec3) :
  calcFixedPointToPointDistance2ndTimeDerivative b s pB a pA =
  calcFixedPointToPointDistance2ndTimeDerivative a s pA b pB.
Proof.
  destruct (isSameMobilizedBody b a) eqn:Hs.
  - unfold calcFixedPointToPointDistance2ndTimeDerivative; rewrite Hs, isSame_sym, Hs; reflexivity.
  - rewrite (distance_second_rate_unfold b a s pB pA Hs).
    rewrite isSame_sym in Hs; rewrite (distance_second_rate_unfold a b s pA pB Hs); cbv zeta.
    generalize (locateBodyPointOnGround a s pA) (locateBodyPointOnGround b s pB)
               (calcBodyFixedPointVelocityInGround a s pA) (calcBodyFixedPointVelocityInGround b s pB)
               (calcBodyFixedPointAccelerationInGround a s pA)
               (calcBodyFixedPointAccelerationInGround b s pB).
    intros rA rB vA vB aA aB.
    rewrite (norm_vsub_sym rB rA), (norm_vsub_sym vB vA).
    destruct (Req_EM_T (norm (vsub rA rB)) 0).
    + destruct (Req_EM_T (norm (vsub vA vB)) 0); [apply norm_vsub_sym |].
      generalize (norm (vsub vA vB)); intro sp; alg.
    + generalize (norm (vsub rA rB)); intro d; alg.
Qed.

Lemma isSame_refl (b : MobilizedBody) : isSameMobilizedBody b b = true.
Proof. unfold isSameMobilizedBody; apply Nat.eqb_refl. Qed.

Lemma ground_cache (b : MobilizedBody) (s : State) :
  ground_at_rest s -> isGround b = true ->
  bodyCache s (mobilizedBodyIndex b) = mkBodyCache transform_identity (vzero, vzero) (vzero, vzero).
Proof.
  unfold ground_at_rest, isGround; intros Hg Hb.
  apply Nat.eqb_eq in Hb; rewrite Hb; exact Hg.
Qed.

Lemma same_cache (b a : MobilizedBody) (s : State) :
  isSameMobilizedBody b a = true -> bodyCache s (mobilizedBodyIndex a) = bodyCache s (mobilizedBodyIndex b).
Proof.
  unfold isSameMobilizedBody; intro H; apply Nat.eqb_eq in H; rewrite H; reflexivity.
Qed.

Lemma vsub_diag (v : Vec3) : vsub v v = vzero.
Proof. alg. Qed.
Lemma cross_vzero_l (v : Vec3) : cross vzero v = vzero.
Proof. alg. Qed.
Lemma cross_vzero_r (v : Vec3) : cross v vzero = vzero.
Proof. alg. Qed.
Lemma mat_vec_vzero (m : Mat33) : mat_vec m vzero = vzero.
Proof. alg. Qed.
Lemma vsub_vzero_r (v : Vec3) : vsub v vzero = v.
Proof. alg. Qed.
Lemma vadd_vzero_r (v : Vec3) : vadd v vzero = v.
Proof. alg. Qed.
Lemma vadd_vzero_l (v : Vec3) : vadd vzero v = v.
Proof. alg. Qed.
Lemma transpose_id : transpose mat_id = mat_id.
Proof. unfold transpose, mat_id, col0, col1, col2; reflexivity. Qed.

(** Cancels the zero terms a body's motion relative to itself produces. *)
Ltac zsimp :=
  repeat rewrite ?vsub_diag, ?cross_vzero_l, ?cross_vzero_r, ?mat_vec_vzero,
    ?vsub_vzero_r, ?vadd_vzero_r, ?vadd_vzero_l, ?transpose_id, ?mat_vec_id.

Ltac unfold_kin :=
  unfold calcStationVelocityInBody, calcBodyFixedPointAccelerationInBody,
    calcBodyFixedPointVelocityInBody, calcBodyPointLocationInBody, locateBodyPointOnBody,
    calcBodySpatialAccelerationInBody, calcBodySpatialVelocityInBody,
    calcBodyAngularVelocityInBody, calcBodyRotationFromBody, locateGroundPointOnBody,
    locateBodyPointOnGround, calcBodyFixedPointVelocityInGround,
    calcBodyFixedPointAccelerationInGround, expressGroundVectorInBody,
    expressBodyVectorInGround, getBodyAngularVelocity, getBodyOriginVelocity, getBodyAngularAcceleration,
    getBodyOriginAcceleration, getBodyRotation, getBodyOriginLocation, getBodyVelocity,
    getBodyAcceleration, getBodyTransform in *.

(** X10: A body does not move relative to itself: its spatial velocity and
    acceleration in its own frame, the velocity and acceleration of any of
    its fixed points in its own frame and the station velocity of any of
    its stations in its own frame are all zero. *)
Theorem self_relative_motion_zero (b : MobilizedBody) (s : State) (p : Vec3) :
  ground_at_rest s ->
  calcBodySpatialVelocityInBody b s b = (vzero, vzero) /\
  calcBodyAngularVelocityInBody b s b = vzero /\
  calcBodyFixedPointVelocityInBody b s p b = vzero /\
  calcBodySpatialAccelerationInBody b s b = (vzero, vzero) /\
  calcBodyFixedPointAccelerationInBody b s p b = vzero /\
  calcStationVelocityInBody b s p b = vzero.
Proof.
  intro Hg; unfold_kin; rewrite !isSame_refl.
  destruct (isGround b) eqn:Hb.
  - rewrite (ground_cache b s Hg Hb); cbn.
    repeat split; alg.
  - generalize (bodyCache s (mobilizedBodyIndex b)); intros [X V A]; cbn.
    unfold rotate_spatial; zsimp; repeat split; alg.
Qed.

(** X11: Measured in Ground, the in-body operators give the Ground operators:
    the velocity and acceleration of a fixed point, the station velocity
    and the location of a point of B in a Ground body A are those computed
    by the InGround operators. *)
Theorem in_ground_body_operators (b g : MobilizedBody) (s : State) (p : Vec3) :
  ground_at_rest s -> isGround g = true ->
  calcBodyFixedPointVelocityInBody b s p g = calcBodyFixedPointVelocityInGround b s p /\
  calcBodyFixedPointAccelerationInBody b s p g = calcBodyFixedPointAccelerationInGround b s p /\
  calcStationVelocityInBody b s p g = calcBodyFixedPointVelocityInGround b s p /\
  calcBodyPointLocationInBody b s p g = locateBodyPointOnGround b s p.
Proof.
  intros Hg Hgr; unfold_kin; rewrite Hgr.
  destruct (isSameMobilizedBody b g) eqn:Hs.
  - rewrite (same_cache b g s Hs) in *.
    assert (Hb : isGround b = true).
    { unfold isGround, isSameMobilizedBody in *; apply Nat.eqb_eq in Hs; rewrite Hs; exact Hgr. }
    rewrite (ground_cache b s Hg Hb); cbn; unfold rotate_spatial; zsimp.
    repeat split; alg.
  - rewrite (ground_cache g s Hg Hgr).
    destruct (isGround b) eqn:Hb.
    + rewrite (ground_cache b s Hg Hb); cbn; unfold rotate_spatial; zsimp.
      repeat split; alg.
    + generalize (bodyCache s (mobilizedBodyIndex b)); intros [X V A]; cbn; unfold rotate_spatial; zsimp.
      repeat split; alg.
Qed.

(** ** Matrix and transform algebra *)

Lemma transpose_involutive (m : Mat33) : transpose (transpose m) = m.
Proof. destruct m as [[] [] []]; reflexivity. Qed.

Lemma mat_mul_assoc (a b c : Mat33) : mat_mul (mat_mul a b) c = mat_mul a (mat_mul b c).
Proof. alg. Qed.

Lemma mat_mul_id_l (m : Mat33) : mat_mul mat_id m = m.
Proof. alg. Qed.

Lemma mat_mul_id_r (m : Mat33) : mat_mul m mat_id = m.
Proof. alg. Qed.

Lemma compose_assoc (X Y Z : Transform) : compose (compose X Y) Z = compose X (compose Y Z).
Proof. alg. Qed.

Lemma compose_identity_l (X : Transform) : compose transform_identity X = X.
Proof. alg. Qed.

Lemma transpose_mul (a b : Mat33) : transpose (mat_mul a b) = mat_mul (transpose b) (transpose a).
Proof. alg. Qed.

Lemma inverse_compose (X Y : Transform) :
  mat_mul (transpose (RR X)) (RR X) = mat_id ->
  inverse (compose X Y) = compose (inverse Y) (inverse X).
Proof.
  destruct X as [R1 T1], Y as [R2 T2]; simpl; intro H.
  unfold inverse, compose; simpl; rewrite transpose_mul; f_equal.
  rewrite mat_vec_mat_mul, mat_vec_vadd, <- (mat_vec_mat_mul (transpose R1) R1), H, mat_vec_id.
  alg.
Qed.

Lemma compose_inverse_r (X : Transform) :
  mat_mul (RR X) (transpose (RR X)) = mat_id -> compose X (inverse X) = transform_identity.
Proof.
  destruct X as [R0 T0]; simpl; intro H.
  unfold compose, inverse, transform_identity; simpl; rewrite H; f_equal.
  rewrite mat_vec_vneg, <- mat_vec_mat_mul, H, mat_vec_id; alg.
Qed.

Lemma inverse_inverse (X : Transform) :
  mat_mul (RR X) (transpose (RR X)) = mat_id -> inverse (inverse X) = X.
Proof.
  destruct X as [R0 T0]; simpl; intro H.
  unfold inverse; simpl; rewrite transpose_involutive; f_equal.
  rewrite mat_vec_vneg, <- mat_vec_mat_mul, H, mat_vec_id; alg.
Qed.

(** The cofactor matrix: row i is the cross product of the other two rows. *)
Definition cofactor (m : Mat33) : Mat33 :=
  mkMat33 (cross (row1 m) (row2 m)) (cross (row2 m) (row0 m)) (cross (row0 m) (row1 m)).

Lemma cross_mat_vec_cofactor (m : Mat33) (x y : Vec3) :
  cross (mat_vec m x) (mat_vec m y) = mat_vec (cofactor m) (cross x y).
Proof. unfold cofactor; alg. Qed.

Lemma cofactor_adjugate (m : Mat33) :
  mat_mul (transpose (cofactor m)) m =
  mkMat33 (mkVec3 (det3 m) 0 0) (mkVec3 0 (det3 m) 0) (mkVec3 0 0 (det3 m)).
Proof. unfold cofactor, det3; alg. Qed.

Lemma cofactor_proper (m : Mat33) :
  mat_mul m (transpose m) = mat_id -> det3 m = 1 -> cofactor m = m.
Proof.
  intros H Hd.
  assert (Ht : transpose (cofactor m) = transpose m).
  { rewrite <- (mat_mul_id_r (transpose (cofactor m))), <- H, <- mat_mul_assoc,
      cofactor_adjugate, Hd.
    apply mat_mul_id_l. }
  rewrite <- (transpose_involutive (cofactor m)), Ht; apply transpose_involutive.
Qed.

(** A proper rotation commutes with the cross product. *)
Lemma cross_rotate (m : Mat33) (x y : Vec3) :
  mat_mul m (transpose m) = mat_id -> det3 m = 1 ->
  cross (mat_vec m x) (mat_vec m y) = mat_vec m (cross x y).
Proof.
  intros H Hd; rewrite cross_mat_vec_cofactor, (cofactor_proper m H Hd); reflexivity.
Qed.

Lemma det3_transpose (m : Mat33) : det3 (transpose m) = det3 m.
Proof. unfold det3; alg. Qed.

Lemma cross_rotate_transpose (r : Mat33) (x y : Vec3) :
  proper_rotation r ->
  cross (mat_vec (transpose r) x) (mat_vec (transpose r) y) = mat_vec (transpose r) (cross x y).
Proof.
  intros [[H1 H2] Hd]; unfold is_rotation in H1.
  apply cross_rotate; [rewrite transpose_involutive; exact H1 | rewrite det3_transpose; exact Hd].
Qed.

Lemma express_inverse_station (r : Mat33) (t y : Vec3) :
  mat_mul r (transpose r) = mat_id ->
  mat_vec r (xform_station (inverse (mkTransform r t)) y) = vsub y t.
Proof.
  intro H; unfold xform_station, inverse; simpl.
  rewrite mat_vec_vadd, mat_vec_vneg, <- !mat_vec_mat_mul, H, !mat_vec_id; alg.
Qed.

(** X12: Relative transforms are mutually inverse: X_BA is the inverse of X_AB. *)
Theorem relative_transform_inverse (b a : MobilizedBody) (s : State) :
  ground_at_rest s -> orthonormal (getBodyRotation a s) -> orthonormal (getBodyRotation b s) ->
  calcBodyTransformFromBody a s b = inverse (calcBodyTransformFromBody b s a).
Proof.
  intros Hg [Ha1 Ha2] [Hb1 Hb2].
  rewrite (transformFromBody_general a b s Hg Ha1), (transformFromBody_general b a s Hg Hb1).
  rewrite inverse_compose, inverse_inverse; [reflexivity | exact Ha2 |].
  simpl; rewrite transpose_involutive; exact Ha2.
Qed.

(** X13: Relative transforms compose along a chain of bodies: X_AB * X_BC = X_AC. *)
Theorem relative_transform_chain (c b a : MobilizedBody) (s : State) :
  ground_at_rest s -> orthonormal (getBodyRotation b s) -> is_rotation (getBodyRotation c s) ->
  compose (calcBodyTransformFromBody b s a) (calcBodyTransformFromBody c s b) =
  calcBodyTransformFromBody c s a.
Proof.
  intros Hg [Hb1 Hb2] Hc.
  rewrite (transformFromBody_general b a s Hg Hb1), (transformFromBody_general c b s Hg Hc),
    (transformFromBody_general c a s Hg Hc).
  rewrite compose_assoc, <- (compose_assoc (getBodyTransform b s)), compose_inverse_r;
    [apply f_equal; apply compose_identity_l | exact Hb2].
Qed.

(** X14: calcStationVelocityInBody, which goes through Ground, and
    calcBodyFixedPointVelocityInBody, which goes through the relative
    spatial velocity, compute the same velocity of a station of B in A. *)
Theorem station_velocity_agrees (b a : MobilizedBody) (s : State) (p : Vec3) :
  ground_at_rest s -> proper_rotation (getBodyRotation a s) ->
  calcStationVelocityInBody b s p a = calcBodyFixedPointVelocityInBody b s p a.
Proof.
  intros Hg Ha; unfold_kin.
  destruct (isGround a) eqn:Hga.
  - rewrite (ground_cache a s Hg Hga).
    destruct (isSameMobilizedBody b a) eqn:Hs.
    + assert (Hb : isGround b = true).
      { unfold isGround, isSameMobilizedBody in *; apply Nat.eqb_eq in Hs; rewrite Hs; exact Hga. }
      rewrite (ground_cache b s Hg Hb); cbn; unfold rotate_spatial; zsimp; alg.
    + destruct (isGround b) eqn:Hb.
      * rewrite (ground_cache b s Hg Hb); cbn; unfold rotate_spatial; zsimp; alg.
      * generalize (bodyCache s (mobilizedBodyIndex b)); intros [X V A]; cbn;
          unfold rotate_spatial; zsimp; alg.
  - destruct (isSameMobilizedBody b a) eqn:Hs.
    + rewrite (same_cache b a s Hs) in *.
      generalize (bodyCache s (mobilizedBodyIndex b)); intros [X V A]; cbn;
        unfold rotate_spatial; zsimp; alg.
    + destruct (bodyCache s (mobilizedBodyIndex a)) as [[Ra TA] VA AA]; cbn in Ha |- *.
      destruct Ha as [[Ha1 Ha2] Hd].
      destruct (isGround b) eqn:Hb.
      * rewrite (ground_cache b s Hg Hb); cbn [cacheX_GB cacheV_GB cacheA_GB RR TT fst snd].
        unfold rotate_spatial; cbn [fst snd].
        rewrite express_inverse_station by exact Ha2.
        rewrite cross_rotate_transpose by (split; [split | ]; assumption).
        zsimp; alg.
      * generalize (bodyCache s (mobilizedBodyIndex b)); intros [[Rb TB] VB AB].
        cbn [cacheX_GB cacheV_GB cacheA_GB RR TT fst snd].
        unfold rotate_spatial; cbn [fst snd].
        rewrite express_inverse_station by exact Ha2.
        rewrite mat_vec_mat_mul, cross_rotate_transpose by (split; [split | ]; assumption).
        alg.
Qed.

(** ** A concrete realized state for the witnesses *)

(** A quarter turn about z, and one about x. *)
Definition rotz90 : Rotation := mkMat33 (mkVec3 0 (-1) 0) (mkVec3 1 0 0) (mkVec3 0 0 1).
Definition rotx90 : Rotation := mkMat33 (mkVec3 1 0 0) (mkVec3 0 0 (-1)) (mkVec3 0 1 0).

(** Ground at rest, body 1 turned about z and moving, body 2 turned about x. *)
Definition witnessState : State :=
  mkState (fun i => match i with
                    | O => mkBodyCache transform_identity (vzero, vzero) (vzero, vzero)
                    | 1%nat => mkBodyCache (mkTransform rotz90 (mkVec3 1 2 3))
                                 (mkVec3 0 0 1, mkVec3 1 0 0) (mkVec3 0 1 0, mkVec3 0 0 1)
                    | _ => mkBodyCache (mkTransform rotx90 (mkVec3 0 1 0))
                                 (mkVec3 1 0 0, mkVec3 0 0 2) (vzero, mkVec3 1 1 0)
                    end).

Definition ground : MobilizedBody := mkMobilizedBody 0.
Definition body1 : MobilizedBody := mkMobilizedBody 1.
Definition body2 : MobilizedBody := mkMobilizedBody 2.

Lemma witnessState_ground_at_rest : ground_at_rest witnessState.
Proof. reflexivity. Qed.

Lemma rotz90_proper : proper_rotation rotz90.
Proof. unfold proper_rotation, orthonormal, is_rotation, det3, rotz90; split; [split |]; alg. Qed.

Lemma rotx90_proper : proper_rotation rotx90.
Proof. unfold proper_rotation, orthonormal, is_rotation, det3, rotx90; split; [split |]; alg. Qed.

Lemma express_vector_roundtrip_witness :
  orthonormal (getBodyRotation body1 witnessState) /\
  expressGroundVectorInBody body1 witnessState
    (expressBodyVectorInGround body1 witnessState (mkVec3 1 2 3)) = mkVec3 1 2 3 /\
  expressBodyVectorInGround body1 witnessState
    (expressGroundVectorInBody body1 witnessState (mkVec3 1 2 3)) = mkVec3 1 2 3.
Proof.
  split; [exact (proj1 rotz90_proper) |].
  exact (express_vector_roundtrip body1 witnessState (mkVec3 1 2 3) (proj1 rotz90_proper)).
Defined.

Lemma locateBodyPointOnBody_roundtrip_witness :
  is_rotation (getBodyRotation body1 witnessState) /\
  mat_mul (getBodyRotation body2 witnessState) (transpose (getBodyRotation body2 witnessState)) = mat_id /\
  locateBodyPointOnBody body2 witnessState
    (locateBodyPointOnBody body1 witnessState (mkVec3 1 0 0) body2) body1 = mkVec3 1 0 0.
Proof.
  split; [exact (proj1 (proj1 rotz90_proper)) |].
  split; [exact (proj2 (proj1 rotx90_proper)) |].
  exact (locateBodyPointOnBody_roundtrip body1 body2 witnessState (mkVec3 1 0 0)
           (proj1 (proj1 rotz90_proper)) (proj2 (proj1 rotx90_proper))).
Defined.

Lemma calcBodyPointLocationInBody_general_witness :
  ground_at_rest witnessState /\ is_rotation (getBodyRotation body1 witnessState) /\
  calcBodyPointLocationInBody body1 witnessState (mkVec3 1 0 0) ground =
  locateBodyPointOnBody body1 witnessState (mkVec3 1 0 0) ground.
Proof.
  split; [exact witnessState_ground_at_rest |].
  split; [exact (proj1 (proj1 rotz90_proper)) |].
  exact (calcBodyPointLocationInBody_general body1 ground witnessState (mkVec3 1 0 0)
           witnessState_ground_at_rest (proj1 (proj1 rotz90_proper))).
Defined.

Lemma calcBodyVectorInBody_general_witness :
  ground_at_rest witnessState /\ is_rotation (getBodyRotation body1 witnessState) /\
  calcBodyVectorInBody body1 witnessState (mkVec3 1 0 0) body1 =
  expressBodyVectorInBody body1 witnessState (mkVec3 1 0 0) body1.
Proof.
  split; [exact witnessState_ground_at_rest |].
  split; [exact (proj1 (proj1 rotz90_proper)) |].
  exact (calcBodyVectorInBody_general body1 body1 witnessState (mkVec3 1 0 0)
           witnessState_ground_at_rest (proj1 (proj1 rotz90_proper))).
Defined.

Lemma calcBodyTransformFromBody_general_witness :
  ground_at_rest witnessState /\ is_rotation (getBodyRotation body2 witnessState) /\
  calcBodyTransformFromBody body2 witnessState body1 =
  compose (inverse (getBodyTransform body1 witnessState)) (getBodyTransform body2 witnessState).
Proof.
  split; [exact witnessState_ground_at_rest |].
  split; [exact (proj1 (proj1 rotx90_proper)) |].
  exact (calcBodyTransformFromBody_general body2 body1 witnessState
           witnessState_ground_at_rest (proj1 (proj1 rotx90_proper))).
Defined.

Lemma rotation_and_origin_match_transform_witness :
  ground_at_rest witnessState /\
  calcBodyRotationFromBody ground witnessState body1 = RR (calcBodyTransformFromBody ground witnessState body1) /\
  calcBodyOriginLocationInBody ground witnessState body1 = TT (calcBodyTransformFromBody ground witnessState body1).
Proof.
  split; [exact witnessState_ground_at_rest |].
  exact (rotation_and_origin_match_transform ground body1 witnessState witnessState_ground_at_rest).
Defined.

Lemma self_relative_motion_zero_witness :
  ground_at_rest witnessState /\
  calcBodyFixedPointAccelerationInBody body1 witnessState (mkVec3 1 1 1) body1 = vzero.
Proof.
  split; [exact witnessState_ground_at_rest |].
  exact (proj1 (proj2 (proj2 (proj2 (proj2
           (self_relative_motion_zero body1 witnessState (mkVec3 1 1 1) witnessState_ground_at_rest)))))).
Defined.

Lemma in_ground_body_operators_witness :
  ground_at_rest witnessState /\ isGround ground = true /\
  calcStationVelocityInBody body1 witnessState (mkVec3 1 0 0) ground =
  calcBodyFixedPointVelocityInGround body1 witnessState (mkVec3 1 0 0).
Proof.
  split; [exact witnessState_ground_at_rest |].
  split; [reflexivity |].
  exact (proj1 (proj2 (proj2
           (in_ground_body_operators body1 ground witnessState (mkVec3 1 0 0)
              witnessState_ground_at_rest eq_refl)))).
Defined.

Lemma relative_transform_inverse_witness :
  ground_at_rest witnessState /\ orthonormal (getBodyRotation body1 witnessState) /\
  orthonormal (getBodyRotation body2 witnessState) /\
  calcBodyTransformFromBody body1 witnessState body2 =
  inverse (calcBodyTransformFromBody body2 witnessState body1).
Proof.
  split; [exact witnessState_ground_at_rest |].
  split; [exact (proj1 rotz90_proper) |].
  split; [exact (proj1 rotx90_proper) |].
  exact (relative_transform_inverse body2 body1 witnessState witnessState_ground_at_rest
           (proj1 rotz90_proper) (proj1 rotx90_proper)).
Defined.

Lemma relative_transform_chain_witness :
  ground_at_rest witnessState /\ orthonormal (getBodyRotation body1 witnessState) /\
  is_rotation (getBodyRotation body2 witnessState) /\
  compose (calcBodyTransformFromBody body1 witnessState ground)
          (calcBodyTransformFromBody body2 witnessState body1) =
  calcBodyTransformFromBody body2 witnessState ground.
Proof.
  split; [exact witnessState_ground_at_rest |].
  split; [exact (proj1 rotz90_proper) |].
  split; [exact (proj1 (proj1 rotx90_proper)) |].
  exact (relative_transform_chain body2 body1 ground witnessState witnessState_ground_at_rest
           (proj1 rotz90_proper) (proj1 (proj1 rotx90_proper))).
Defined.

Lemma station_velocity_agrees_witness :
  ground_at_rest witnessState /\ proper_rotation (getBodyRotation body2 witnessState) /\
  calcStationVelocityInBody body1 witnessState (mkVec3 1 0 0) body2 =
  calcBodyFixedPointVelocityInBody body1 witnessState (mkVec3 1 0 0) body2.
Proof.
  split; [exact witnessState_ground_at_rest |].
  split; [exact rotx90_proper |].
  exact (station_velocity_agrees body1 body2 witnessState (mkVec3 1 0 0)
           witnessState_ground_at_rest rotx90_proper).
Defined.

End RelativeKinematicsFacts.

Module ForceAccumulationFacts.
Import MobilityForces OneDofForces MobilityForceFacts.

Lemma nth_add_to_slot (l : list R) (i k : nat) (f : R) :
  (k < length l)%nat ->
  nth k (add_to_slot l i f) 0 = nth k l 0 + (if Nat.eqb i k then f else 0).
Proof.
  intro Hk; unfold add_to_slot.
  destruct (Nat.eqb_spec i k) as [-> | Hne].
  - rewrite nth_set_nth_eq by exact Hk; reflexivity.
  - rewrite nth_set_nth_neq by (intro E; apply Hne; symmetry; exact E); ring.
Qed.

(** X15: A sequence of applyOneMobilityForce calls keeps the length of the
    mobilityForces Vector, and each in-range slot ends up holding its
    initial value plus the sum of the forces addressed to it, whatever the
    order of the calls. *)
Theorem mobility_forces_accumulate (t : UPartition) (fs : list (nat * nat * R))
    (l0 : list R) (k : nat) :
  (k < length l0)%nat ->
  let l := fold_left (fun l '(body, which, f) => applyOneMobilityForce t body which f l) fs l0 in
  length l = length l0 /\
  nth k l 0 =
  nth k l0 0 + fold_right (fun '(body, which, f) acc =>
                             (if Nat.eqb (updOneFromUPartition t body which) k then f else 0) + acc)
                          0 fs.
Proof.
  revert l0; induction fs as [| [[body which] f] fs IH]; intros l0 Hk; simpl.
  - split; [reflexivity | ring].
  - assert (Hlen : length (applyOneMobilityForce t body which f l0) = length l0)
      by apply length_set_nth.
    destruct (IH (applyOneMobilityForce t body which f l0)) as [H1 H2]; [lia |].
    split; [rewrite H1; exact Hlen |].
    rewrite H2; unfold applyOneMobilityForce; rewrite nth_add_to_slot by exact Hk; ring.
Qed.

Definition twoDofPartition : UPartition :=
  mkUPartition (fun b => (2 * b)%nat) (fun _ => 2%nat).

Lemma mobility_forces_accumulate_witness :
  (1 < length [0; 0; 0; 0])%nat /\
  nth 1 (fold_left (fun l '(body, which, f) => applyOneMobilityForce twoDofPartition body which f l)
           [(0%nat, 1%nat, 2); (1%nat, 0%nat, 5); (0%nat, 1%nat, 3)] [0; 0; 0; 0]) 0 =
  nth 1 [0; 0; 0; 0] 0 + (2 + (0 + (3 + 0))).
Proof.
  split; [cbn; lia |].
  exact (proj2 (mobility_forces_accumulate twoDofPartition
                  [(0%nat, 1%nat, 2); (1%nat, 0%nat, 5); (0%nat, 1%nat, 3)] [0; 0; 0; 0] 1
                  ltac:(cbn; lia))).
Defined.

(** X16: For a Pin and a Slider, the applied torque or force read back after
    applyPinTorque / applyForce is the one read before plus the amount
    applied, and the value read for a mobilizer with another u slot is
    unchanged. *)
Theorem one_dof_get_after_apply (t : UPartition) (body other : nat) (f : R) (l : list R) :
  (uIndex t body < length l)%nat ->
  getAppliedPinTorque t body (applyPinTorque t body f l) = getAppliedPinTorque t body l + f /\
  getAppliedForce_Slider t body (applyForce_Slider t body f l) = getAppliedForce_Slider t body l + f /\
  (uIndex t other <> uIndex t body ->
   getAppliedPinTorque t other (applyPinTorque t body f l) = getAppliedPinTorque t other l /\
  getAppliedForce_Slider t other (applyForce_Slider t body f l) = getAppliedForce_Slider t other l).
Proof.
  intro H; unfold getAppliedPinTorque, getAppliedForce_Slider, getMyPartU_OneDof,
    applyPinTorque, applyForce_Slider, updMyPartU_Pin, updMyPartU_Slider, add_to_slot.
  split; [apply nth_set_nth_eq; exact H |].
  split; [apply nth_set_nth_eq; exact H |].
  intro Hne; split; apply nth_set_nth_neq; exact Hne.
Qed.

Lemma one_dof_get_after_apply_witness :
  (uIndex pinPartition 1 < length [5; 7; 9])%nat /\
  getAppliedPinTorque pinPartition 1 (applyPinTorque pinPartition 1 2 [5; 7; 9]) =
  getAppliedPinTorque pinPartition 1 [5; 7; 9] + 2.
Proof.
  split; [cbn; lia |].
  exact (proj1 (one_dof_get_after_apply pinPartition 1 0 2 [5; 7; 9] ltac:(cbn; lia))).
Defined.

End ForceAccumulationFacts.
